(** * Claim processing of the wallet migration backend

    A shallow embedding of [src/router/wallet.js], lines 1-458, the variant
    of the claim endpoint that is bounded by the allocation table: the
    allocation registry, the checks and the transaction of [POST /claim],
    and the allocation report of [GET /allocations/:address].

    Conventions of the embedding.
    - A JavaScript number is an IEEE 754 binary64 value, in the executable
      format [spec_float] of the standard library (precision 53, maximal
      exponent 1024); [parseFloat] rounds a decimal literal to the nearest
      such value.
    - A JavaScript string is a string of bytes; [toLowerCase] and
      [toUpperCase] act on the ASCII letters, and [parseFloat] skips ASCII
      white space.
    - The object [WALLET_ALLOCATIONS] is a finite map of its own properties;
      the read of a key it does not own goes to [Object.prototype].
    - A PostgreSQL table is the list of its rows in insertion order, and a
      handler runs alone from [connect] to [release]. *)

From Stdlib Require Import ZArith Bool List Ascii String Lia.
From Stdlib Require Import Floats.SpecFloat.
From stdpp Require Import base option list strings gmap.
Import ListNotations.

Open Scope string_scope.

(** ** Numbers *)

Module Num.

Abbreviation num := spec_float.

Definition prec : Z := 53.
Definition emax : Z := 1024.

Definition NaN : num := S754_nan.
Definition pzero : num := S754_zero false.

Definition add : num -> num -> num := SFadd prec emax.
Definition sub : num -> num -> num := SFsub prec emax.
Definition mul : num -> num -> num := SFmul prec emax.
Definition abs : num -> num := SFabs.

(** [x < y], [x <= y] and [x > y] of JavaScript: false as soon as an
    operand is NaN. *)
Definition lt (x y : num) : bool := SFltb x y.
Definition le (x y : num) : bool := SFleb x y.
Definition gt (x y : num) : bool := SFltb y x.

Definition isNaN (x : num) : bool :=
  match x with S754_nan => true | _ => false end.

Definition is_zero (x : num) : bool :=
  match x with S754_zero _ => true | _ => false end.

(** ToBoolean on a number: [NaN], [+0] and [-0] are falsy. *)
Definition truthy (x : num) : bool := negb (isNaN x || is_zero x).

(** The number an integer or a quotient of integers rounds to. *)
Definition of_Z (z : Z) : num := binary_normalize prec emax z 0 false.

Definition of_decimal (neg : bool) (m : positive) (e10 : Z) : num :=
  match e10 with
  | Zneg k =>
      SFdiv prec emax (S754_finite neg m 0) (S754_finite false (10 ^ k)%positive 0)
  | _ => binary_normalize prec emax
           (if neg then Z.neg m * 10 ^ e10 else Z.pos m * 10 ^ e10)%Z 0 false
  end.

(** [Math.max(a, b)]: NaN if an operand is NaN, and [+0] is larger
    than [-0]. *)
Definition max (a b : num) : num :=
  if isNaN a || isNaN b then NaN
  else if lt a b then b
  else if lt b a then a
  else match a with S754_zero true => b | _ => a end.

End Num.

Abbreviation num := Num.num.

(** ** Strings and values of the JSON body *)

(** A string is a sequence of characters of one byte. The model is that of
    the strings of JavaScript on the [plain] ones, whose characters are the
    ASCII characters but NUL: there [toLowerCase] and [toUpperCase] change
    the letters A-Z and a-z only and the white space [parseFloat] skips is
    the six characters of [ParseFloat.is_space], and PostgreSQL takes the
    string as a text parameter. Outside of them, the case mappings of
    JavaScript follow Unicode, its white space has more characters, and a
    NUL in a text parameter makes the statement fail. *)
Definition code (c : ascii) : N := N_of_ascii c.

Definition plain_char (c : ascii) : bool := (1 <=? code c)%N && (code c <=? 127)%N.

Fixpoint plain (s : string) : bool :=
  match s with
  | EmptyString => true
  | String c s' => plain_char c && plain s'
  end.

Definition lower_ascii (c : ascii) : ascii :=
  if (65 <=? code c)%N && (code c <=? 90)%N then ascii_of_N (code c + 32) else c.

Definition upper_ascii (c : ascii) : ascii :=
  if (97 <=? code c)%N && (code c <=? 122)%N then ascii_of_N (code c - 32) else c.

Fixpoint map_string (f : ascii -> ascii) (s : string) : string :=
  match s with
  | EmptyString => EmptyString
  | String c s' => String (f c) (map_string f s')
  end.

Definition toLowerCase : string -> string := map_string lower_ascii.
Definition toUpperCase : string -> string := map_string upper_ascii.

(** [s.slice(i, j)] for [0 <= i <= j]. *)
Definition slice (i j : nat) (s : string) : string := substring i (j - i) s.

(** A field of the body is absent ([JUndefined]) or a JSON scalar; array
    and object values are outside the model. *)
Inductive jsval : Type :=
| JUndefined
| JNull
| JBool (b : bool)
| JNum (x : num)
| JStr (s : string).

(** A number or a boolean goes out as digits and letters. *)
Definition plain_value (v : jsval) : bool :=
  match v with
  | JStr s => plain s
  | _ => true
  end.

(** ToBoolean, the test behind [!v] and [v || w]. *)
Definition to_boolean (v : jsval) : bool :=
  match v with
  | JUndefined | JNull => false
  | JBool b => b
  | JNum x => Num.truthy x
  | JStr EmptyString => false
  | JStr (String _ _) => true
  end.

(** *** [parseFloat] *)

Module ParseFloat.

Definition is_space (c : ascii) : bool :=
  match code c with
  | 9%N | 10%N | 11%N | 12%N | 13%N | 32%N => true
  | _ => false
  end.

Fixpoint skip_spaces (s : string) : string :=
  match s with
  | String c s' => if is_space c then skip_spaces s' else s
  | EmptyString => s
  end.

Definition digit (c : ascii) : option Z :=
  if (48 <=? code c)%N && (code c <=? 57)%N then Some (Z.of_N (code c) - 48)%Z
  else None.

(** Reads a run of decimal digits: the value read so far, the number of
    digits read and the rest of the input. *)
Fixpoint digits (s : string) (acc : Z) (n : nat) : Z * nat * string :=
  match s with
  | String c s' =>
      match digit c with
      | Some d => digits s' (10 * acc + d)%Z (S n)
      | None => (acc, n, s)
      end
  | EmptyString => (acc, n, s)
  end.

(** ExponentPart, when the input starts with one. *)
Definition exponent (s : string) : Z :=
  match s with
  | String c s' =>
      if Ascii.eqb c "e" || Ascii.eqb c "E" then
        let '(neg, s'') :=
          match s' with
          | String "-" r => (true, r)
          | String "+" r => (false, r)
          | _ => (false, s')
          end in
        let '(e, n, _) := digits s'' 0%Z 0 in
        match n with
        | O => 0%Z
        | S _ => if neg then (- e)%Z else e
        end
      else 0%Z
  | EmptyString => 0%Z
  end.

(** The longest prefix that is a StrUnsignedDecimalLiteral. *)
Definition unsigned (neg : bool) (s : string) : num :=
  if String.prefix "Infinity" s then S754_infinity neg
  else
    let '(ip, ni, r1) := digits s 0%Z 0 in
    let '(m, nf, r2) :=
      match r1 with
      | String "." r => digits r ip 0
      | _ => (ip, 0, r1)
      end in
    match ni, nf with
    | O, O => Num.NaN
    | _, _ =>
        match m with
        | Zpos p => Num.of_decimal neg p (exponent r2 - Z.of_nat nf)
        | _ => S754_zero neg
        end
    end.

Definition of_string (s : string) : num :=
  match skip_spaces s with
  | String "-" r => unsigned true r
  | String "+" r => unsigned false r
  | r => unsigned false r
  end.

End ParseFloat.

(** [parseFloat(v)] converts [v] to a string first. A number prints to a
    literal that reads back as itself, [-0] prints as [0], and the strings
    of [undefined], [null], [true] and [false] start no literal. *)
Definition parseFloat (v : jsval) : num :=
  match v with
  | JStr s => ParseFloat.of_string s
  | JNum (S754_zero _) => Num.pzero
  | JNum x => x
  | JUndefined | JNull | JBool _ => Num.NaN
  end.

(** ** The allocation registry *)

(** One entry of [WALLET_ALLOCATIONS]. *)
Record allocation : Type := { taral : num; rvlng : num }.

(** One record of the parsed CSV file; a column the header does not name
    reads as [undefined]. *)
Record csv_record : Type :=
  { wallet_address : jsval; taral_amount : jsval; rvlng_amount : jsval }.

(** The object [allocations]: its own properties, and under the key
    [__proto__] its prototype when an assignment has replaced it. An
    assignment [allocations["__proto__"] = entry] creates no own property:
    it makes [entry] the prototype of the object, a later one replaces it
    again, and a read of [__proto__] gives the prototype back. So the map
    holds under that key what the object holds in that slot; the own
    properties, which [Object.keys] and [JSON.stringify] see, are the other
    keys. *)
Definition own_properties (allocations : gmap string allocation)
  : gmap string allocation :=
  delete "__proto__" allocations.

(** [loadWalletAllocations]. The argument is what reading and parsing the
    file gave, [None] when [readFileSync] or [parse] threw. The [catch]
    block logs and falls off the end of the function, so the result is then
    [undefined], here [None]. A record without an address makes
    [toLowerCase] throw inside the same [try]. *)
Definition loadWalletAllocations (file : option (list csv_record))
  : option (gmap string allocation) :=
  records ← file;
  foldl (fun acc record =>
           allocations ← acc;
           match wallet_address record with
           | JStr a =>
               let address := toLowerCase a in
               Some (<[ address :=
                        {| taral := parseFloat (taral_amount record);
                           rvlng := parseFloat (rvlng_amount record) |} ]> allocations)
           | _ => None
           end)
        (Some ∅) records.

(** The names [Object.prototype] gives to every object literal. *)
Definition Object_prototype : list string :=
  [ "constructor"; "__defineGetter__"; "__defineSetter__"; "hasOwnProperty";
    "__lookupGetter__"; "__lookupSetter__"; "isPrototypeOf";
    "propertyIsEnumerable"; "toString"; "valueOf"; "__proto__";
    "toLocaleString" ].

(** What [WALLET_ALLOCATIONS[key]] evaluates to, as far as the code can
    tell: an entry ([Own]: an own property, or the replaced prototype itself
    when the key is [__proto__]); a truthy value with neither a [taral] nor a
    [rvlng] property ([Inherited]: a member of [Object.prototype], or a
    number that is not zero found as [taral] or [rvlng] on a replaced
    prototype); or a falsy value ([Missing]: [undefined], or a number 0 or
    NaN found there). *)
Inductive property : Type :=
| Own (a : allocation)
| Inherited
| Missing.

Definition get_property (allocations : gmap string allocation) (key : string)
  : property :=
  match allocations !! key with
  | Some a => Own a
  | None =>
      match allocations !! "__proto__" with
      | Some prototype =>
          if String.eqb key "taral" then
            if Num.truthy (taral prototype) then Inherited else Missing
          else if String.eqb key "rvlng" then
            if Num.truthy (rvlng prototype) then Inherited else Missing
          else if bool_decide (key ∈ Object_prototype) then Inherited else Missing
      | None => if bool_decide (key ∈ Object_prototype) then Inherited else Missing
      end
  end.

(** What [getUserAllocation] returns: [null], a number, or [undefined]
    when the property read went to the prototype. *)
Inductive allocated : Type :=
| Null
| Amount (x : num)
| Undefined.

(** ToNumber, as the subtraction applies it. *)
Definition to_number (a : allocated) : num :=
  match a with
  | Null => Num.pzero
  | Amount x => x
  | Undefined => Num.NaN
  end.

(** ** Early returns and exceptions *)

(** What flows out of a handler step: the next value, an early [return] of
    a response, or a thrown exception. *)
Inductive outcome (R A : Type) : Type :=
| Next (a : A)
| Return (r : R)
| Throw (message : string).

Arguments Next {R A} a.
Arguments Return {R A} r.
Arguments Throw {R A} message.

Definition outcome_bind {R A B} (c : outcome R A) (k : A -> outcome R B)
  : outcome R B :=
  match c with
  | Next a => k a
  | Return r => Return r
  | Throw m => Throw m
  end.

Declare Scope outcome_scope.
Delimit Scope outcome_scope with outcome.
Notation "x <- c ;; k" := (outcome_bind c (fun x => k))
  (at level 100, c at next level, right associativity) : outcome_scope.

(** ** The store *)

(** Modelled from the spec: the schema of the tables [claims] and [users]
    is not in the repository. A claim record gets its identifier [id] and
    its creation time [created_at] from the server and the status
    [completed]; a wallet account starts with all totals at zero. Columns
    hold the values the handler passes, and no constraint is declared. *)
Module Claims.
Record row : Type :=
  { id : N;
    claim_id : string;
    user_address : string;
    token_type : string;
    amount : num;
    transaction_hash : string;
    conversion_rate : num;
    nova_amount : num;
    timestamp : jsval;
    status : string;
    created_at : string }.
End Claims.

Module Users.
Record row : Type :=
  { address : string;
    taral_claimed : num;
    rvlng_claimed : num;
    total_nova : num;
    first_claim_at : jsval;
    last_claim_at : jsval;
    updated_at : string }.
End Users.

Record db : Type :=
  { claims : list Claims.row;
    users : list Users.row;
    claims_id_seq : N }.

Definition empty_db : db := {| claims := []; users := []; claims_id_seq := 1 |}.

(** The statements a handler sends through [client.query]. *)
Inductive statement : Type :=
| BEGIN
| COMMIT
| ROLLBACK
| SELECT_claims_by_transaction_hash (transaction_hash : string)
| SELECT_claims_by_user_and_token (user_address token_type : string)
| SELECT_users_by_address (address : string)
| INSERT_users (address : string) (first_claim_at : jsval)
| INSERT_claims (claim_id user_address token_type : string) (amount : num)
    (transaction_hash : string) (conversion_rate nova_amount : num)
    (timestamp : jsval)
| UPDATE_users_taral (amount nova_amount : num) (last_claim_at : jsval) (address : string)
| UPDATE_users_rvlng (amount nova_amount : num) (last_claim_at : jsval) (address : string)
| SELECT_user_totals (address : string)
| SELECT_count_claims (user_address : string).

(** Whether a statement reads or writes a claim record or a wallet account. *)
Definition touches_rows (q : statement) : bool :=
  match q with
  | BEGIN | COMMIT | ROLLBACK => false
  | _ => true
  end.

(** A pooled connection: the committed store, the working copy of the open
    transaction if there is one, and the statements sent so far. *)
Record session : Type :=
  { committed : db;
    transaction : option db;
    sent : list statement }.

Definition current (s : session) : db := default (committed s) (transaction s).

Definition write (d : db) (s : session) : session :=
  match transaction s with
  | Some _ => {| committed := committed s; transaction := Some d; sent := sent s |}
  | None => {| committed := d; transaction := None; sent := sent s |}
  end.

Definition send (q : statement) (s : session) : session :=
  {| committed := committed s; transaction := transaction s; sent := sent s ++ [q] |}.

(** What the world outside the handler supplies to one call. *)
Record env : Type :=
  { Date_now : string;          (* Date.now().toString() *)
    Math_random : string;       (* Math.random().toString(36) *)
    toISOString : string;       (* new Date().toISOString() *)
    CURRENT_TIMESTAMP : string  (* the clock of the database *) }.

Definition M (R A : Type) : Type := session -> outcome R A * session.

Definition ret {R A} (a : A) : M R A := fun s => (Next a, s).

Definition bind {R A B} (c : M R A) (k : A -> M R B) : M R B :=
  fun s =>
    match c s with
    | (Next a, s') => k a s'
    | (Return r, s') => (Return r, s')
    | (Throw m, s') => (Throw m, s')
    end.

Definition return_ {R A} (r : R) : M R A := fun s => (Return r, s).
Definition throw {R A} (m : string) : M R A := fun s => (Throw m, s).
Definition lift {R A} (c : outcome R A) : M R A := fun s => (c, s).

Declare Scope M_scope.
Delimit Scope M_scope with M.
Notation "x <- c ;; k" := (bind c (fun x => k))
  (at level 100, c at next level, right associativity) : M_scope.
Notation "c ;; k" := (bind c (fun _ => k))
  (at level 100, right associativity) : M_scope.

(** ** [client.query] *)

(** The statements are those of the handler on text parameters that are
    [plain]; PostgreSQL refuses a text parameter that holds a NUL, and the
    call then ends in the [catch] block. *)

Section Queries.

Context {R : Type}.

(** A second [BEGIN] inside a transaction and a [COMMIT] outside of one
    only raise a warning. *)
Definition query_BEGIN : M R unit :=
  fun s =>
    (Next tt,
     send BEGIN
       match transaction s with
       | Some _ => s
       | None => {| committed := committed s;
                    transaction := Some (committed s);
                    sent := sent s |}
       end).

Definition query_COMMIT : M R unit :=
  fun s =>
    (Next tt,
     send COMMIT {| committed := current s; transaction := None; sent := sent s |}).

Definition query_ROLLBACK : M R unit :=
  fun s =>
    (Next tt,
     send ROLLBACK {| committed := committed s; transaction := None; sent := sent s |}).

(** [SELECT id, created_at FROM claims WHERE transaction_hash = $1] *)
Definition select_claims_by_transaction_hash (h : string) : M R (list Claims.row) :=
  fun s =>
    (Next (filter (fun r => Claims.transaction_hash r = h) (claims (current s))),
     send (SELECT_claims_by_transaction_hash h) s).

(** [SELECT id, created_at FROM claims WHERE user_address = $1 AND token_type = $2] *)
Definition select_claims_by_user_and_token (a t : string) : M R (list Claims.row) :=
  fun s =>
    (Next (filter (fun r => Claims.user_address r = a ∧ Claims.token_type r = t)
             (claims (current s))),
     send (SELECT_claims_by_user_and_token a t) s).

(** [SELECT address FROM users WHERE address = $1] *)
Definition select_users_by_address (a : string) : M R (list Users.row) :=
  fun s =>
    (Next (filter (fun u => Users.address u = a) (users (current s))),
     send (SELECT_users_by_address a) s).

(** [INSERT INTO users (address, first_claim_at, last_claim_at) VALUES ($1, $2, $2)] *)
Definition insert_users (e : env) (a : string) (t : jsval) : M R unit :=
  fun s =>
    let d := current s in
    let u := {| Users.address := a;
                Users.taral_claimed := Num.pzero;
                Users.rvlng_claimed := Num.pzero;
                Users.total_nova := Num.pzero;
                Users.first_claim_at := t;
                Users.last_claim_at := t;
                Users.updated_at := CURRENT_TIMESTAMP e |} in
    (Next tt,
     send (INSERT_users a t)
       (write {| claims := claims d; users := users d ++ [u];
                 claims_id_seq := claims_id_seq d |} s)).

(** [INSERT INTO claims (claim_id, user_address, token_type, amount,
    transaction_hash, conversion_rate, nova_amount, timestamp) VALUES ...] *)
Definition insert_claims (e : env) (claimId a t : string) (claimAmount : num)
    (h : string) (rate novaAmount : num) (claimTimestamp : jsval) : M R unit :=
  fun s =>
    let d := current s in
    let c := {| Claims.id := claims_id_seq d;
                Claims.claim_id := claimId;
                Claims.user_address := a;
                Claims.token_type := t;
                Claims.amount := claimAmount;
                Claims.transaction_hash := h;
                Claims.conversion_rate := rate;
                Claims.nova_amount := novaAmount;
                Claims.timestamp := claimTimestamp;
                Claims.status := "completed";
                Claims.created_at := CURRENT_TIMESTAMP e |} in
    (Next tt,
     send (INSERT_claims claimId a t claimAmount h rate novaAmount claimTimestamp)
       (write {| claims := claims d ++ [c]; users := users d;
                 claims_id_seq := (claims_id_seq d + 1)%N |} s)).

(** [UPDATE users SET taral_claimed = taral_claimed + $1, total_nova =
    total_nova + $2, last_claim_at = $3, updated_at = CURRENT_TIMESTAMP
    WHERE address = $4], and the same statement on [rvlng_claimed]. *)
Definition update_user (taral_kind : bool) (e : env) (claimAmount novaAmount : num)
    (claimTimestamp : jsval) (a : string) (u : Users.row) : Users.row :=
  if bool_decide (Users.address u = a) then
    {| Users.address := Users.address u;
       Users.taral_claimed :=
         if taral_kind then Num.add (Users.taral_claimed u) claimAmount
         else Users.taral_claimed u;
       Users.rvlng_claimed :=
         if taral_kind then Users.rvlng_claimed u
         else Num.add (Users.rvlng_claimed u) claimAmount;
       Users.total_nova := Num.add (Users.total_nova u) novaAmount;
       Users.first_claim_at := Users.first_claim_at u;
       Users.last_claim_at := claimTimestamp;
       Users.updated_at := CURRENT_TIMESTAMP e |}
  else u.

Definition update_users (taral_kind : bool) (e : env) (claimAmount novaAmount : num)
    (claimTimestamp : jsval) (a : string) : M R unit :=
  fun s =>
    let d := current s in
    (Next tt,
     send ((if taral_kind then UPDATE_users_taral else UPDATE_users_rvlng)
             claimAmount novaAmount claimTimestamp a)
       (write {| claims := claims d;
                 users := map (update_user taral_kind e claimAmount novaAmount
                                 claimTimestamp a) (users d);
                 claims_id_seq := claims_id_seq d |} s)).

(** [SELECT taral_claimed, rvlng_claimed, total_nova FROM users WHERE address = $1] *)
Definition select_user_totals (a : string) : M R (list Users.row) :=
  fun s =>
    (Next (filter (fun u => Users.address u = a) (users (current s))),
     send (SELECT_user_totals a) s).

(** [SELECT COUNT] of the rows of [claims] [WHERE user_address = $1] *)
Definition select_count_claims (a : string) : M R N :=
  fun s =>
    (Next (N.of_nat (length (filter (fun r => Claims.user_address r = a)
                               (claims (current s))))),
     send (SELECT_count_claims a) s).

End Queries.

(** ** [POST /wallet/claim] *)

(** [req.body], destructured. *)
Module Body.
Record t : Type :=
  { tokenType : jsval;
    amount : jsval;
    transactionHash : jsval;
    userAddress : jsval;
    timestamp : jsval;
    conversionRate : jsval }.
End Body.

(** The requests whose strings are [plain]. *)
Definition plain_request (b : Body.t) : bool :=
  plain_value (Body.tokenType b) && plain_value (Body.amount b)
  && plain_value (Body.transactionHash b) && plain_value (Body.userAddress b)
  && plain_value (Body.timestamp b) && plain_value (Body.conversionRate b).

(** The [data] of the success response. *)
Module Data.
Record totals : Type :=
  { taralClaimed : num;
    rvlngClaimed : num;
    totalNova : num;
    totalClaims : N }.
Record t : Type :=
  { claimId : string;
    tokenType : string;
    amountClaimed : num;
    novaReceived : num;
    transactionHash : jsval;
    userAddress : string;
    status : string;
    timestamp : jsval;
    userTotals : totals }.
End Data.

(** The responses of the handler, by status and [error] text. *)
Inductive response : Type :=
| MissingFields          (* 400, Missing required fields: ... *)
| InvalidTokenKind       (* 400, Invalid token type. Must be TARAL or RVLNG *)
| InvalidAmount          (* 400, Invalid amount. Must be a positive number *)
| InvalidRate            (* 400, Invalid conversion rate. Must be a positive number *)
| UnknownWallet          (* 403, Wallet address not found in allocation list *)
| AllocationMismatch (expectedAmount : allocated) (providedAmount : num)
                         (* 400, Invalid claim amount. Expected ... *)
| DuplicateTransaction (existingClaimId : N) (processedAt : string)
                         (* 409, Transaction already processed *)
| AlreadyClaimed (existingClaimId : N) (claimedAt : string)
                         (* 409, ... already claimed by this wallet *)
| Success (data : Data.t)
                         (* 200 *)
| InternalError (message : string)
                         (* 500, Internal server error *).

(** A request that went through the checks of lines 104-160. *)
Record valid_claim : Type :=
  { kind : string;              (* tokenType.toUpperCase() *)
    claimAmount : num;
    rate : num;
    claimUserAddress : string;
    hash : jsval;               (* transactionHash *)
    stamp : jsval               (* timestamp *) }.

Definition method_toUpperCase {R} (v : jsval) : outcome R string :=
  match v with
  | JStr s => Next (toUpperCase s)
  | _ => Throw "TypeError: toUpperCase is not a function"
  end.

Definition method_toLowerCase {R} (v : jsval) : outcome R string :=
  match v with
  | JStr s => Next (toLowerCase s)
  | _ => Throw "TypeError: toLowerCase is not a function"
  end.

(** [getUserAllocation(userAddress, tokenType)]. The text of a thrown
    error stands for its message, which in the engine also names the key
    that was read. *)
Definition getUserAllocation {R} (WALLET_ALLOCATIONS : option (gmap string allocation))
    (userAddress tokenType : jsval) : outcome R allocated :=
  (normalizedAddress <- method_toLowerCase userAddress ;;
   match WALLET_ALLOCATIONS with
   | None => Throw "TypeError: Cannot read properties of undefined"
   | Some allocations =>
       match get_property allocations normalizedAddress with
       | Missing => Next Null
       | Inherited =>
           _ <- method_toUpperCase (R := R) tokenType ;;
           Next Undefined
       | Own allocation =>
           t <- method_toUpperCase tokenType ;;
           Next (Amount (if String.eqb t "TARAL"
                         then taral allocation else rvlng allocation))
       end
   end)%outcome.

(** The literals [1] and [0.01]. *)
Definition one : num := Num.of_Z 1.
Definition tolerance : num := Num.of_decimal false 1 (-2).

(** [a || b] on numbers. *)
Definition or_else (a b : num) : num := if Num.truthy a then a else b.

Arguments one : simpl never.
Arguments tolerance : simpl never.
Arguments or_else : simpl never.
Arguments parseFloat : simpl never.

(** [!tokenType || !amount || !transactionHash || !userAddress] *)
Definition missing_fields (b : Body.t) : bool :=
  negb (to_boolean (Body.tokenType b)) || negb (to_boolean (Body.amount b))
  || negb (to_boolean (Body.transactionHash b))
  || negb (to_boolean (Body.userAddress b)).

(** Lines 104-160: the checks made before the first [SELECT]. *)
Definition validate (WALLET_ALLOCATIONS : option (gmap string allocation))
    (b : Body.t) : outcome response valid_claim :=
  (if missing_fields b then Return MissingFields
   else
     t <- method_toUpperCase (Body.tokenType b) ;;
     if negb (bool_decide (t ∈ ["TARAL"; "RVLNG"])) then Return InvalidTokenKind
     else
       let claimAmount := parseFloat (Body.amount b) in
       if Num.isNaN claimAmount || Num.le claimAmount Num.pzero
       then Return InvalidAmount
       else
         let rate := or_else (parseFloat (Body.conversionRate b)) one in
         if Num.isNaN rate || Num.le rate Num.pzero then Return InvalidRate
         else
           claimUserAddress <- method_toLowerCase (Body.userAddress b) ;;
           userAllocation <-
             getUserAllocation WALLET_ALLOCATIONS (JStr claimUserAddress)
               (Body.tokenType b) ;;
           match userAllocation with
           | Null => Return UnknownWallet
           | _ =>
               if Num.gt (Num.abs (Num.sub claimAmount (to_number userAllocation)))
                    tolerance
               then Return (AllocationMismatch userAllocation claimAmount)
               else
                 Next {| kind := t;
                         claimAmount := claimAmount;
                         rate := rate;
                         claimUserAddress := claimUserAddress;
                         hash := Body.transactionHash b;
                         stamp := Body.timestamp b |}
           end)%outcome.

Section Handlers.

(** [Number.prototype.toString], by which [pg] turns a number into the
    text of a statement parameter. *)
Variable Number_toString : num -> string.

(** The text [pg] sends for a parameter; [null] and [undefined] go out
    as [NULL], which no check lets through to a statement. *)
Definition prepareValue (v : jsval) : string :=
  match v with
  | JStr s => s
  | JNum x => Number_toString x
  | JBool true => "true"
  | JBool false => "false"
  | JNull | JUndefined => EmptyString
  end.

(** Lines 162-286: the statements of the transaction and the success
    response. *)
Definition ledger (e : env) (v : valid_claim) : M response response :=
  (let transactionHash := prepareValue (hash v) in
   existingClaim <- select_claims_by_transaction_hash transactionHash ;;
   match existingClaim with
   | r :: _ =>
       query_ROLLBACK ;;
       return_ (DuplicateTransaction (Claims.id r) (Claims.created_at r))
   | [] =>
       existingTokenClaim <-
         select_claims_by_user_and_token (claimUserAddress v) (kind v) ;;
       match existingTokenClaim with
       | r :: _ =>
           query_ROLLBACK ;;
           return_ (AlreadyClaimed (Claims.id r) (Claims.created_at r))
       | [] =>
           let claimId := Date_now e ++ "_" ++ slice 2 9 (Math_random e) in
           let novaAmount := Num.mul (claimAmount v) (rate v) in
           let claimTimestamp :=
             if to_boolean (stamp v) then stamp v else JStr (toISOString e) in
           existingUser <- select_users_by_address (claimUserAddress v) ;;
           match existingUser with
           | [] => insert_users e (claimUserAddress v) claimTimestamp
           | _ => ret tt
           end ;;
           insert_claims e claimId (claimUserAddress v) (kind v) (claimAmount v)
             transactionHash (rate v) novaAmount claimTimestamp ;;
           (if String.eqb (kind v) "TARAL" then
              update_users true e (claimAmount v) novaAmount claimTimestamp
                (claimUserAddress v)
            else if String.eqb (kind v) "RVLNG" then
              update_users false e (claimAmount v) novaAmount claimTimestamp
                (claimUserAddress v)
            else ret tt) ;;
           userTotals <- select_user_totals (claimUserAddress v) ;;
           claimsCount <- select_count_claims (claimUserAddress v) ;;
           query_COMMIT ;;
           match userTotals with
           | [] => throw "TypeError: Cannot read properties of undefined"
           | userStats :: _ =>
               ret (Success
                      {| Data.claimId := claimId;
                         Data.tokenType := kind v;
                         Data.amountClaimed := claimAmount v;
                         Data.novaReceived := novaAmount;
                         Data.transactionHash := hash v;
                         Data.userAddress := claimUserAddress v;
                         Data.status := "completed";
                         Data.timestamp := claimTimestamp;
                         Data.userTotals :=
                           {| Data.taralClaimed :=
                                parseFloat (JNum (Users.taral_claimed userStats));
                              Data.rvlngClaimed :=
                                parseFloat (JNum (Users.rvlng_claimed userStats));
                              Data.totalNova :=
                                parseFloat (JNum (Users.total_nova userStats));
                              Data.totalClaims := claimsCount |} |})
           end
       end
   end)%M.

(** The [try] block: [BEGIN], the checks, the transaction. *)
Definition claim_try (WALLET_ALLOCATIONS : option (gmap string allocation))
    (e : env) (b : Body.t) : M response response :=
  (query_BEGIN ;;
   v <- lift (validate WALLET_ALLOCATIONS b) ;;
   ledger e v)%M.

(** A block of the handler inside its [try], on a connection taken from
    the pool. The [catch] block rolls back and answers 500; the result is
    the response and the connection as [release] hands it back to the
    pool. *)
Definition run (block : M response response) (store : db) : response * session :=
  let client := {| committed := store; transaction := None; sent := [] |} in
  match block client with
  | (Next r, s) | (Return r, s) => (r, s)
  | (Throw m, s) => (InternalError m, snd (query_ROLLBACK (R := response) s))
  end.

(** The handler of [POST /claim]. *)
Definition post_claim (WALLET_ALLOCATIONS : option (gmap string allocation))
    (e : env) (b : Body.t) (store : db) : response * session :=
  run (claim_try WALLET_ALLOCATIONS e b) store.

(** The ledger operation of the specification: what the handler does with
    a request that its checks let through, [BEGIN] and lines 162-286. *)
Definition submit (e : env) (v : valid_claim) (store : db) : response * session :=
  run (query_BEGIN ;; ledger e v)%M store.

End Handlers.

(** ** Two calls at once *)

(** [INSERT INTO claims] on a table that refuses a second row under one
    transaction reference, with the error the driver then throws. The
    specification asks this of the storage; the schema is not in the
    repository, and the handler does not depend on it. *)
Definition insert_claims_unique (e : env) (claimId a t : string) (claimAmount : num)
    (h : string) (rate novaAmount : num) (claimTimestamp : jsval)
  : M response unit :=
  fun s =>
    match filter (fun r => Claims.transaction_hash r = h) (claims (current s)) with
    | [] => insert_claims e claimId a t claimAmount h rate novaAmount claimTimestamp s
    | _ :: _ =>
        (Throw "error: duplicate key value violates unique constraint",
         send (INSERT_claims claimId a t claimAmount h rate novaAmount claimTimestamp) s)
    end.

(** The handler is an [async] function: at every [await client.query] the
    other calls of the process can go on, each on a connection of its own.
    Below, a call is cut in two between the lookups and the statements that
    follow them, and the table [claims] is the one of the store, which
    takes every row ([insert_claims]), or one that keeps the references
    unique ([insert_claims_unique]). *)
Section Two_calls.

Variable Number_toString : num -> string.
Variable INSERT_INTO_claims :
  env -> string -> string -> string -> num -> string -> num -> num -> jsval ->
  M response unit.

(** Lines 162-196: the two lookups, which end the call with a conflict
    when one of them finds a row. *)
Definition lookups (v : valid_claim) : M response unit :=
  (let transactionHash := prepareValue Number_toString (hash v) in
   existingClaim <- select_claims_by_transaction_hash transactionHash ;;
   match existingClaim with
   | r :: _ =>
       query_ROLLBACK ;;
       return_ (DuplicateTransaction (Claims.id r) (Claims.created_at r))
   | [] =>
       existingTokenClaim <-
         select_claims_by_user_and_token (claimUserAddress v) (kind v) ;;
       match existingTokenClaim with
       | r :: _ =>
           query_ROLLBACK ;;
           return_ (AlreadyClaimed (Claims.id r) (Claims.created_at r))
       | [] => ret tt
       end
   end)%M.

(** Lines 198-286: the statements after the lookups, up to [COMMIT], and
    the success response. *)
Definition record_claim (e : env) (v : valid_claim) : M response response :=
  (let transactionHash := prepareValue Number_toString (hash v) in
   let claimId := Date_now e ++ "_" ++ slice 2 9 (Math_random e) in
   let novaAmount := Num.mul (claimAmount v) (rate v) in
   let claimTimestamp :=
     if to_boolean (stamp v) then stamp v else JStr (toISOString e) in
   existingUser <- select_users_by_address (claimUserAddress v) ;;
   match existingUser with
   | [] => insert_users e (claimUserAddress v) claimTimestamp
   | _ => ret tt
   end ;;
   INSERT_INTO_claims e claimId (claimUserAddress v) (kind v) (claimAmount v)
     transactionHash (rate v) novaAmount claimTimestamp ;;
   (if String.eqb (kind v) "TARAL" then
      update_users true e (claimAmount v) novaAmount claimTimestamp
        (claimUserAddress v)
    else if String.eqb (kind v) "RVLNG" then
      update_users false e (claimAmount v) novaAmount claimTimestamp
        (claimUserAddress v)
    else ret tt) ;;
   userTotals <- select_user_totals (claimUserAddress v) ;;
   claimsCount <- select_count_claims (claimUserAddress v) ;;
   query_COMMIT ;;
   match userTotals with
   | [] => throw "TypeError: Cannot read properties of undefined"
   | userStats :: _ =>
       ret (Success
              {| Data.claimId := claimId;
                 Data.tokenType := kind v;
                 Data.amountClaimed := claimAmount v;
                 Data.novaReceived := novaAmount;
                 Data.transactionHash := hash v;
                 Data.userAddress := claimUserAddress v;
                 Data.status := "completed";
                 Data.timestamp := claimTimestamp;
                 Data.userTotals :=
                   {| Data.taralClaimed :=
                        parseFloat (JNum (Users.taral_claimed userStats));
                      Data.rvlngClaimed :=
                        parseFloat (JNum (Users.rvlng_claimed userStats));
                      Data.totalNova :=
                        parseFloat (JNum (Users.total_nova userStats));
                      Data.totalClaims := claimsCount |} |})
   end)%M.

(** What a connection that has written nothing yet sees at its next
    statement when the committed store is [shared]: at READ COMMITTED, the
    isolation level of PostgreSQL unless another is asked for, every
    statement sees the rows committed before it starts. *)
Definition sees (shared : db) (s : session) : session :=
  {| committed := shared;
     transaction := match transaction s with
                    | Some _ => Some shared
                    | None => None
                    end;
     sent := sent s |}.

(** The end of a call: its response, or the [catch] block. *)
Definition settle (c : outcome response response * session) : response * session :=
  match c with
  | (Next r, s) | (Return r, s) => (r, s)
  | (Throw m, s) => (InternalError m, snd (query_ROLLBACK (R := response) s))
  end.

(** A call that was held after its lookups goes on when the committed store
    is [shared], and runs to its end. *)
Definition resume (e : env) (v : valid_claim) (shared : db)
    (held : outcome response unit * session) : response * session :=
  match held with
  | (Next _, s) => settle (record_claim e v (sees shared s))
  | (Return r, s) => (r, sees shared s)
  | (Throw m, s) =>
      (InternalError m, snd (query_ROLLBACK (R := response) (sees shared s)))
  end.

(** Two calls with requests that passed the checks, on two connections:
    both send [BEGIN] and their lookups before either writes; then the first
    runs to its [COMMIT], then the second. The result is how each of them
    ended, the second one with the store as the two left it. *)
Definition both_look_then_write (e1 e2 : env) (v1 v2 : valid_claim) (store : db)
  : (response * session) * (response * session) :=
  let client := {| committed := store; transaction := None; sent := [] |} in
  let held1 := (query_BEGIN ;; lookups v1)%M client in
  let held2 := (query_BEGIN ;; lookups v2)%M client in
  let end1 := resume e1 v1 store held1 in
  let end2 := resume e2 v2 (committed (snd end1)) held2 in
  (end1, end2).

End Two_calls.

(** ** [GET /wallet/allocations/:address] *)

Module Report.
Record entry : Type :=
  { allocated : allocated;
    claimed : num;
    remaining : num;
    canClaim : bool }.
Record t : Type :=
  { address : string;
    taral : entry;
    rvlng : entry }.
End Report.

Inductive allocations_response : Type :=
| Allocations (data : Report.t)       (* 200 *)
| AddressNotFound (address : string)  (* 404 *)
| AllocationsError                    (* 500 *).

(** [allocation.taral] and [allocation.rvlng] on a truthy [allocation]. *)
Definition read_taral (p : property) : allocated :=
  match p with Own a => Amount (taral a) | _ => Undefined end.

Definition read_rvlng (p : property) : allocated :=
  match p with Own a => Amount (rvlng a) | _ => Undefined end.

(** The body of the [forEach] over the claims of the wallet. *)
Definition add_claimed (claimed : allocation) (claim : Claims.row) : allocation :=
  if String.eqb (Claims.token_type claim) "TARAL" then
    {| taral := Num.add (taral claimed) (parseFloat (JNum (Claims.amount claim)));
       rvlng := rvlng claimed |}
  else if String.eqb (Claims.token_type claim) "RVLNG" then
    {| taral := taral claimed;
       rvlng := Num.add (rvlng claimed) (parseFloat (JNum (Claims.amount claim))) |}
  else claimed.

Definition entry_of (allocated : allocated) (claimed : num) : Report.entry :=
  let remaining := Num.max Num.pzero (Num.sub (to_number allocated) claimed) in
  {| Report.allocated := allocated;
     Report.claimed := claimed;
     Report.remaining := remaining;
     Report.canClaim := Num.gt remaining Num.pzero |}.

Definition get_allocations (WALLET_ALLOCATIONS : option (gmap string allocation))
    (param : string) (store : db) : allocations_response :=
  let address := toLowerCase param in
  match WALLET_ALLOCATIONS with
  | None => AllocationsError
  | Some allocations =>
      match get_property allocations address with
      | Missing => AddressNotFound param
      | allocation =>
          let claimedTokens :=
            filter (fun r => Claims.user_address r = address) (claims store) in
          let claimed :=
            foldl add_claimed {| taral := Num.pzero; rvlng := Num.pzero |}
              claimedTokens in
          Allocations
            {| Report.address := param;
               Report.taral := entry_of (read_taral allocation) (taral claimed);
               Report.rvlng := entry_of (read_rvlng allocation) (rvlng claimed) |}
      end
  end.

(** ** Stores the handler can produce, and what it keeps true of them *)

(** The six rejections of the checks of lines 104-160. *)
Definition is_rejection (r : response) : bool :=
  match r with
  | MissingFields | InvalidTokenKind | InvalidAmount | InvalidRate
  | UnknownWallet | AllocationMismatch _ _ => true
  | _ => false
  end.

Definition pair_of (c : Claims.row) : string * string :=
  (Claims.user_address c, Claims.token_type c).

(** No two claim records share a transaction reference. *)
Definition unique_hashes (d : db) : Prop :=
  NoDup (Claims.transaction_hash <$> claims d).

(** No two claim records share a wallet and a token kind. *)
Definition unique_pairs (d : db) : Prop :=
  NoDup (pair_of <$> claims d).

(** The derived amount of a record is its amount times its rate. *)
Definition derived (c : Claims.row) : Prop :=
  Claims.nova_amount c = Num.mul (Claims.amount c) (Claims.conversion_rate c).

(** The time stamp the handler records: [timestamp || new Date().toISOString()]. *)
Definition claimTimestamp_of (e : env) (v : valid_claim) : jsval :=
  if to_boolean (stamp v) then stamp v else JStr (toISOString e).

(** The sum the allocation report takes over the claims of a wallet for one
    token kind, every amount read back by [parseFloat]. *)
Definition claimed_sum (kind : string) (address : string) (d : db) : num :=
  foldl (fun acc c => Num.add acc (parseFloat (JNum (Claims.amount c)))) Num.pzero
    (filter (fun c => Claims.user_address c = address ∧ Claims.token_type c = kind)
       (claims d)).

Section Reachable.

Variable Number_toString : num -> string.

(** The record a successful call inserts. *)
Definition inserted (e : env) (v : valid_claim) (d : db) : Claims.row :=
  {| Claims.id := claims_id_seq d;
     Claims.claim_id := Date_now e ++ "_" ++ slice 2 9 (Math_random e);
     Claims.user_address := claimUserAddress v;
     Claims.token_type := kind v;
     Claims.amount := claimAmount v;
     Claims.transaction_hash := prepareValue Number_toString (hash v);
     Claims.conversion_rate := rate v;
     Claims.nova_amount := Num.mul (claimAmount v) (rate v);
     Claims.timestamp := claimTimestamp_of e v;
     Claims.status := "completed";
     Claims.created_at := CURRENT_TIMESTAMP e |}.

(** The wallet accounts after a successful call: the account is created
    if the wallet has none, then the totals of the kind are raised. *)
Definition users_after (e : env) (v : valid_claim) (us : list Users.row)
  : list Users.row :=
  let ensured :=
    match filter (fun u => Users.address u = claimUserAddress v) us with
    | [] =>
        (us ++ [ {| Users.address := claimUserAddress v;
                    Users.taral_claimed := Num.pzero;
                    Users.rvlng_claimed := Num.pzero;
                    Users.total_nova := Num.pzero;
                    Users.first_claim_at := claimTimestamp_of e v;
                    Users.last_claim_at := claimTimestamp_of e v;
                    Users.updated_at := CURRENT_TIMESTAMP e |} ])%list
    | _ => us
    end in
  if String.eqb (kind v) "TARAL" then
    map (update_user true e (claimAmount v) (Num.mul (claimAmount v) (rate v))
           (claimTimestamp_of e v) (claimUserAddress v)) ensured
  else if String.eqb (kind v) "RVLNG" then
    map (update_user false e (claimAmount v) (Num.mul (claimAmount v) (rate v))
           (claimTimestamp_of e v) (claimUserAddress v)) ensured
  else ensured.

(** The store a successful call commits. *)
Definition store_after (e : env) (v : valid_claim) (d : db) : db :=
  {| claims := claims d ++ [inserted e v d];
     users := users_after e v (users d);
     claims_id_seq := (claims_id_seq d + 1)%N |}.

(** The stores that calls of the handler, one after the other, lead to
    from the empty store, whatever the registry, the clock and the
    requests. *)
Inductive reachable : db -> Prop :=
| reachable_empty : reachable empty_db
| reachable_claim W e b d :
    reachable d ->
    reachable (committed (snd (post_claim Number_toString W e b d))).

End Reachable.

(** The scenario of the specification: one wallet entitled to 50 TARAL and
    0 RVLNG, which claims the 50 at rate 2. *)
Definition registry_50 : gmap string allocation :=
  {[ "0xabc" := {| taral := Num.of_Z 50; rvlng := Num.of_Z 0 |} ]}.

Definition request_50 : Body.t :=
  {| Body.tokenType := JStr "TARAL";
     Body.amount := JStr "50";
     Body.transactionHash := JStr "tx1";
     Body.userAddress := JStr "0xABC";
     Body.timestamp := JUndefined;
     Body.conversionRate := JStr "2" |}.

Definition with_rate (v : jsval) (b : Body.t) : Body.t :=
  {| Body.tokenType := Body.tokenType b;
     Body.amount := Body.amount b;
     Body.transactionHash := Body.transactionHash b;
     Body.userAddress := Body.userAddress b;
     Body.timestamp := Body.timestamp b;
     Body.conversionRate := v |}.

Definition with_amount (v : jsval) (b : Body.t) : Body.t :=
  {| Body.tokenType := Body.tokenType b;
     Body.amount := v;
     Body.transactionHash := Body.transactionHash b;
     Body.userAddress := Body.userAddress b;
     Body.timestamp := Body.timestamp b;
     Body.conversionRate := Body.conversionRate b |}.

Definition with_address (v : jsval) (b : Body.t) : Body.t :=
  {| Body.tokenType := Body.tokenType b;
     Body.amount := Body.amount b;
     Body.transactionHash := Body.transactionHash b;
     Body.userAddress := v;
     Body.timestamp := Body.timestamp b;
     Body.conversionRate := Body.conversionRate b |}.


Definition clock_0 : env :=
  {| Date_now := "1700000000000";
     Math_random := "0.k3j2h1g9f8";
     toISOString := "2024-01-01T00:00:00.000Z";
     CURRENT_TIMESTAMP := "2024-01-01 00:00:00" |}.

(** A stand-in for [Number.prototype.toString] where a concrete one is
    needed; the scenario sends strings only. *)
Definition no_digits (x : num) : string := "NaN".

(** The store after the scenario's first claim. *)
Definition store_50 : db :=
  committed (snd (post_claim no_digits (Some registry_50) clock_0 request_50 empty_db)).

(** What the checks make of the scenario's request, and the record its
    claim inserts. *)
Definition valid_50 : valid_claim :=
  {| kind := "TARAL";
     claimAmount := Num.of_Z 50;
     rate := Num.of_Z 2;
     claimUserAddress := "0xabc";
     hash := JStr "tx1";
     stamp := JUndefined |}.

Definition record_50 : Claims.row := inserted no_digits clock_0 valid_50 empty_db.

(** A request with the reference of the scenario and nothing else in
    common with it, and the scenario's request under a second reference. *)
Definition other_payload : valid_claim :=
  {| kind := "RVLNG";
     claimAmount := Num.of_Z 7;
     rate := Num.of_Z 3;
     claimUserAddress := "0xdef";
     hash := JStr "tx1";
     stamp := JStr "2025-05-05T05:05:05.000Z" |}.


(** ** The other endpoints of the router *)

(** [GET /wallet/reload-allocations], lines 842-862 of the file: the
    registry is replaced by what [loadWalletAllocations] returns, and
    [Object.keys] then throws on [undefined], which the [catch] block
    answers with 500. The response counts and lists the own properties. The
    result is the response and the new registry. *)
Inductive reload_response : Type :=
| Reloaded (totalWallets : nat) (allocations : gmap string allocation)  (* 200 *)
| ReloadFailed                                                          (* 500 *).

Definition get_reload_allocations (file : option (list csv_record))
  : reload_response * option (gmap string allocation) :=
  let WALLET_ALLOCATIONS := loadWalletAllocations file in
  match WALLET_ALLOCATIONS with
  | Some allocations =>
      (Reloaded (size (own_properties allocations)) (own_properties allocations),
       WALLET_ALLOCATIONS)
  | None => (ReloadFailed, WALLET_ALLOCATIONS)
  end.





(** [GET /wallet/claims/:address], in its two versions: lines 372-454
    compute the summary from the claims of the wallet, lines 865-925 read it
    from the row of [users]. *)
Module Summary.
Record t : Type :=
  { taralClaimed : num;
    rvlngClaimed : num;
    totalNova : num;
    totalClaims : nat;
    firstClaimAt : jsval;
    lastClaimAt : jsval }.
End Summary.

(** The columns the query of the endpoint selects. *)
Module Listed.
Record claim : Type :=
  { claim_id : string;
    token_type : string;
    amount : num;
    transaction_hash : string;
    conversion_rate : num;
    nova_amount : num;
    status : string;
    timestamp : jsval;
    created_at : string }.
End Listed.




Section Claims_of_a_wallet.

(** The time value of [new Date(v)], NaN for an invalid date, and the order
    [ORDER BY timestamp DESC] puts rows in; neither is fixed by the
    repository. *)
Variable Date_value : jsval -> num.
Variable order_by_timestamp_desc : list Claims.row -> list Claims.row.






End Claims_of_a_wallet.

(** ** What the reachable stores keep true beyond the claims *)

(** The sum of the derived amounts of the claims of a wallet, in the order
    of insertion. *)
Definition nova_sum (address : string) (d : db) : num :=
  foldl (fun acc c => Num.add acc (Claims.nova_amount c)) Num.pzero
    (filter (fun c => Claims.user_address c = address) (claims d)).

(** A record as the handler writes it. *)
Definition normalized (c : Claims.row) : Prop :=
  toLowerCase (Claims.user_address c) = Claims.user_address c
  /\ Claims.token_type c ∈ ["TARAL"; "RVLNG"]
  /\ Num.gt (Claims.amount c) Num.pzero = true
  /\ Claims.status c = "completed".

(** A wallet account agrees with the claims of its wallet. *)
Definition account_agrees (d : db) (u : Users.row) : Prop :=
  Users.taral_claimed u = claimed_sum "TARAL" (Users.address u) d
  /\ Users.rvlng_claimed u = claimed_sum "RVLNG" (Users.address u) d
  /\ Users.total_nova u = nova_sum (Users.address u) d.

(** Every record is normalized and belongs to an account, no two accounts
    share an address, and every account agrees with the claims of its
    wallet and has at least one. *)
Definition well_kept (d : db) : Prop :=
  (forall c, c ∈ claims d ->
     normalized c
     /\ exists u, u ∈ users d /\ Users.address u = Claims.user_address c)
  /\ NoDup (Users.address <$> users d)
  /\ (forall u, u ∈ users d ->
        account_agrees d u
        /\ exists c, c ∈ claims d /\ Claims.user_address c = Users.address u).

(** The account [INSERT INTO users] opens, and the accounts the handler
    updates: those there were, and the new one if the wallet had none. *)
Definition opened (e : env) (v : valid_claim) : Users.row :=
  {| Users.address := claimUserAddress v;
     Users.taral_claimed := Num.pzero;
     Users.rvlng_claimed := Num.pzero;
     Users.total_nova := Num.pzero;
     Users.first_claim_at := claimTimestamp_of e v;
     Users.last_claim_at := claimTimestamp_of e v;
     Users.updated_at := CURRENT_TIMESTAMP e |}.

Definition ensured (e : env) (v : valid_claim) (us : list Users.row)
  : list Users.row :=
  match filter (fun u => Users.address u = claimUserAddress v) us with
  | [] => (us ++ [opened e v])%list
  | _ => us
  end.




(** The request with another token kind, and three variants of the
    scenario's request: in mixed case, with three fields that fail a check
    each, and with a number for the token kind. *)
Definition with_kind (v : jsval) (b : Body.t) : Body.t :=
  {| Body.tokenType := v;
     Body.amount := Body.amount b;
     Body.transactionHash := Body.transactionHash b;
     Body.userAddress := Body.userAddress b;
     Body.timestamp := Body.timestamp b;
     Body.conversionRate := Body.conversionRate b |}.

Definition request_mixed_case : Body.t :=
  with_address (JStr "0xAbC") (with_kind (JStr "Taral") request_50).

Definition request_wrong : Body.t :=
  with_rate (JStr "-2") (with_amount (JStr "-50") (with_kind (JStr "DOGE") request_50)).

Definition request_number_kind : Body.t :=
  with_kind (JNum (Num.of_Z 1)) request_50.


(** The registry of the scenario as a CSV file, and a file with a row that
    has no address. *)
Definition file_50 : list csv_record :=
  [ {| wallet_address := JStr "0xABC";
       taral_amount := JStr "50";
       rvlng_amount := JStr "0" |} ].

(** A file with a row for the address [__proto__] after the row of the
    scenario, written twice in different case, and the registry it loads. *)
Definition file_prototype : list csv_record :=
  [ {| wallet_address := JStr "0xABC";
       taral_amount := JStr "7";
       rvlng_amount := JStr "7" |};
    {| wallet_address := JStr "0xabc";
       taral_amount := JStr "50";
       rvlng_amount := JStr "0" |};
    {| wallet_address := JStr "__proto__";
       taral_amount := JStr "9";
       rvlng_amount := JStr "0" |} ].

Definition registry_prototype : gmap string allocation :=
  <[ "__proto__" := {| taral := Num.of_Z 9; rvlng := Num.of_Z 0 |} ]> registry_50.

Definition file_broken : list csv_record :=
  (file_50 ++ [ {| wallet_address := JUndefined;
                   taral_amount := JStr "1";
                   rvlng_amount := JStr "1" |} ])%list.

(** * Properties *)

(** ** Numbers *)

Lemma positive_is_valid (x : num) :
  Num.gt x Num.pzero = true ->
  Num.isNaN x = false /\ Num.le x Num.pzero = false /\ Num.truthy x = true.
Proof. destruct x as [[]|[]| |[] m e]; cbn; intros H; try discriminate; auto. Qed.

Lemma negative_is_truthy (x : num) :
  Num.lt x Num.pzero = true ->
  Num.isNaN x = false /\ Num.le x Num.pzero = true /\ Num.truthy x = true.
Proof. destruct x as [[]|[]| |[] m e]; cbn; intros H; try discriminate; auto. Qed.

Lemma max_zero_not_negative (x : num) :
  Num.lt (Num.max Num.pzero x) Num.pzero = false.
Proof. destruct x as [[]|[]| |[] m e]; reflexivity. Qed.

Lemma max_zero_of_negative (x : num) :
  Num.lt x Num.pzero = true -> Num.max Num.pzero x = Num.pzero.
Proof. destruct x as [[]|[]| |[] m e]; cbn; intros H; try discriminate; reflexivity. Qed.

Lemma max_zero_of_positive (x : num) :
  Num.gt x Num.pzero = true -> Num.max Num.pzero x = x.
Proof. destruct x as [[]|[]| |[] m e]; cbn; intros H; try discriminate; reflexivity. Qed.

Lemma max_zero_of_not_positive (x : num) :
  Num.le x Num.pzero = true -> Num.max Num.pzero x = Num.pzero.
Proof. destruct x as [[]|[]| |[] m e]; cbn; intros H; try discriminate; reflexivity. Qed.

Lemma or_else_truthy (x y : num) : Num.truthy x = true -> or_else x y = x.
Proof. unfold or_else. intros ->. reflexivity. Qed.

(** ** Strings *)

Lemma lower_ascii_idempotent c : lower_ascii (lower_ascii c) = lower_ascii c.
Proof. destruct c as [[] [] [] [] [] [] [] []]; reflexivity. Qed.

Lemma toLowerCase_idempotent s : toLowerCase (toLowerCase s) = toLowerCase s.
Proof.
  unfold toLowerCase. induction s as [|c s IH]; [reflexivity|].
  cbn [map_string]. rewrite lower_ascii_idempotent, IH. reflexivity.
Qed.

(** ** Lists of rows *)

Lemma filter_unique {A B} `{EqDecision B} (f : A -> B) (l : list A) (x : A) :
  NoDup (f <$> l) -> x ∈ l -> filter (fun y => f y = f x) l = [x].
Proof.
  induction l as [|a l IH]; intros Hnd Hin.
  - inversion Hin.
  - rewrite fmap_cons in Hnd. apply NoDup_cons in Hnd as [Hfresh Hnd].
    apply elem_of_cons in Hin as [->|Hin].
    + rewrite filter_cons_True by reflexivity. f_equal.
      destruct (filter (fun y => f y = f a) l) as [|z zs] eqn:E; [reflexivity|].
      exfalso. apply Hfresh.
      assert (Hz : z ∈ filter (fun y => f y = f a) l) by (rewrite E; left).
      apply list_elem_of_filter in Hz as [Hz1 Hz2]. rewrite <- Hz1.
      apply list_elem_of_fmap_2. exact Hz2.
    + rewrite filter_cons_False; [auto|].
      intros Heq. apply Hfresh. rewrite Heq. apply list_elem_of_fmap_2. exact Hin.
Qed.

Lemma filter_nil_fresh {A B} `{EqDecision B} (f : A -> B) (l : list A) (y : B) :
  filter (fun x => f x = y) l = [] -> y ∉ (f <$> l).
Proof.
  intros E Hin. apply list_elem_of_fmap in Hin as (x0 & -> & Hx).
  exact (filter_nil_not_elem_of (fun x => f x = f x0) l x0 E eq_refl Hx).
Qed.

Lemma fresh_filter_nil {A B} `{EqDecision B} (f : A -> B) (l : list A) (y : B) :
  y ∉ (f <$> l) -> filter (fun x => f x = y) l = [].
Proof.
  intros Hy. destruct (filter (fun x => f x = y) l) as [|x xs] eqn:E; [reflexivity|].
  exfalso. apply Hy. assert (Hx : x ∈ x :: xs) by left. rewrite <- E in Hx.
  apply list_elem_of_filter in Hx as [<- Hx]. apply list_elem_of_fmap_2, Hx.
Qed.

Lemma fresh_pair_iff (l : list Claims.row) (a t : string) :
  filter (fun r => Claims.user_address r = a ∧ Claims.token_type r = t) l = []
  <-> (a, t) ∉ (pair_of <$> l).
Proof.
  assert (E : filter (fun r => Claims.user_address r = a ∧ Claims.token_type r = t) l
              = filter (fun r => pair_of r = (a, t)) l).
  { apply list_filter_iff. intros c. unfold pair_of.
    split; [intros [-> ->]; reflexivity|intros [= -> ->]; auto]. }
  rewrite E. split; [apply filter_nil_fresh|apply fresh_filter_nil].
Qed.

Lemma NoDup_snoc_fresh {A} (l : list A) (x : A) : NoDup l -> x ∉ l -> NoDup (l ++ [x]).
Proof.
  intros Hl Hx. apply NoDup_app. split; [exact Hl|]. split.
  - intros y Hy Hy'. apply list_elem_of_singleton in Hy'. subst. auto.
  - apply NoDup_singleton.
Qed.

(** ** The five ways a call ends *)

Lemma update_user_address k e x y t a u :
  Users.address (update_user k e x y t a u) = Users.address u.
Proof. unfold update_user. case_bool_decide; reflexivity. Qed.

Lemma filter_address_map k e x y t a (us : list Users.row) :
  filter (fun u => Users.address u = a) us <> [] ->
  filter (fun u => Users.address u = a) (map (update_user k e x y t a) us) <> [].
Proof.
  induction us as [|u us IH]; [auto|]. cbn [map].
  rewrite !filter_cons, update_user_address.
  case_decide; [discriminate|auto].
Qed.

Section Submit.

Variable Number_toString : num -> string.
Variable e : env.
Variable v : valid_claim.
Variable store : db.

Local Abbreviation submit := (submit Number_toString e v store).
Local Abbreviation prepareValue := (prepareValue Number_toString).

Lemma submit_duplicate r0 rest :
  filter (fun r => Claims.transaction_hash r = prepareValue (hash v)) (claims store)
    = r0 :: rest ->
  submit = (DuplicateTransaction (Claims.id r0) (Claims.created_at r0),
            {| committed := store; transaction := None;
               sent := [BEGIN;
                        SELECT_claims_by_transaction_hash (prepareValue (hash v));
                        ROLLBACK] |}).
Proof.
  intros E. unfold submit, run, bind, query_BEGIN. cbn.
  unfold ledger, bind, select_claims_by_transaction_hash. cbn.
  rewrite E. reflexivity.
Qed.

Lemma submit_already r0 rest :
  filter (fun r => Claims.transaction_hash r = prepareValue (hash v)) (claims store)
    = [] ->
  filter (fun r => Claims.user_address r = claimUserAddress v
                   ∧ Claims.token_type r = kind v) (claims store)
    = r0 :: rest ->
  submit = (AlreadyClaimed (Claims.id r0) (Claims.created_at r0),
            {| committed := store; transaction := None;
               sent := [BEGIN;
                        SELECT_claims_by_transaction_hash (prepareValue (hash v));
                        SELECT_claims_by_user_and_token (claimUserAddress v) (kind v);
                        ROLLBACK] |}).
Proof.
  intros E1 E2. unfold submit, run, bind, query_BEGIN. cbn.
  unfold ledger, bind, select_claims_by_transaction_hash. cbn. rewrite E1.
  unfold select_claims_by_user_and_token. cbn. rewrite E2. reflexivity.
Qed.

Lemma users_after_has_account :
  filter (fun u => Users.address u = claimUserAddress v)
    (users_after e v (users store)) <> [].
Proof.
  assert (H : filter (fun u => Users.address u = claimUserAddress v)
                match filter (fun u => Users.address u = claimUserAddress v)
                        (users store) with
                | [] => (users store ++
                        [ {| Users.address := claimUserAddress v;
                             Users.taral_claimed := Num.pzero;
                             Users.rvlng_claimed := Num.pzero;
                             Users.total_nova := Num.pzero;
                             Users.first_claim_at := claimTimestamp_of e v;
                             Users.last_claim_at := claimTimestamp_of e v;
                             Users.updated_at := CURRENT_TIMESTAMP e |} ])%list
                | _ => users store
                end <> []).
  { destruct (filter _ (users store)) as [|u us] eqn:E.
    - rewrite filter_app, E, filter_cons_True by reflexivity. discriminate.
    - rewrite E. discriminate. }
  unfold users_after.
  destruct (String.eqb (kind v) "TARAL"); [apply filter_address_map, H|].
  destruct (String.eqb (kind v) "RVLNG"); [apply filter_address_map, H|exact H].
Qed.

Lemma submit_success :
  filter (fun r => Claims.transaction_hash r = prepareValue (hash v)) (claims store)
    = [] ->
  filter (fun r => Claims.user_address r = claimUserAddress v
                   ∧ Claims.token_type r = kind v) (claims store)
    = [] ->
  exists data s,
    submit = (Success data, s)
    /\ committed s = store_after Number_toString e v store
    /\ transaction s = None
    /\ Data.amountClaimed data = claimAmount v
    /\ Data.novaReceived data = Num.mul (claimAmount v) (rate v).
Proof.
  intros E1 E2.
  pose proof users_after_has_account as Hacc.
  unfold submit, run, bind, query_BEGIN. cbn.
  unfold ledger, bind, select_claims_by_transaction_hash. cbn. rewrite E1.
  unfold select_claims_by_user_and_token. cbn. rewrite E2.
  unfold select_users_by_address. cbn.
  unfold users_after in Hacc. fold (claimTimestamp_of e v).
  destruct (filter _ (users store)) as [|u us] eqn:E3; cbn;
    (destruct (String.eqb (kind v) "TARAL") eqn:K1;
     [|destruct (String.eqb (kind v) "RVLNG") eqn:K2]); cbn.
  all: rewrite ?K1, ?K2 in Hacc.
  all: match type of Hacc with
       | ?X <> [] =>
           destruct X as [|u' us'] eqn:E4; [exfalso; apply Hacc; reflexivity|]
       end.
  all: eexists _, _; split; [reflexivity|].
  all: cbn; repeat split.
  all: unfold store_after, users_after; rewrite ?E3, ?E4, ?K1, ?K2; reflexivity.
Qed.

End Submit.

Section Cases.

Variable Number_toString : num -> string.
Variable W : option (gmap string allocation).
Variable e : env.
Variable b : Body.t.
Variable store : db.

Local Abbreviation post_claim := (post_claim Number_toString W e b store).
Local Abbreviation prepareValue := (prepareValue Number_toString).

Lemma post_claim_rejected r :
  validate W b = Return r ->
  post_claim = (r, {| committed := store; transaction := Some store; sent := [BEGIN] |}).
Proof.
  intros H. unfold post_claim, run, claim_try, bind, lift, query_BEGIN.
  cbn. rewrite H. reflexivity.
Qed.

Lemma post_claim_thrown m :
  validate W b = Throw m ->
  post_claim = (InternalError m,
                {| committed := store; transaction := None; sent := [BEGIN; ROLLBACK] |}).
Proof.
  intros H. unfold post_claim, run, claim_try, bind, lift, query_BEGIN.
  cbn. rewrite H. reflexivity.
Qed.

(** On a request that the checks let through, the handler is [submit]. *)
Lemma post_claim_valid v :
  validate W b = Next v -> post_claim = submit Number_toString e v store.
Proof.
  intros H. unfold post_claim, submit, run, claim_try, bind, lift, query_BEGIN.
  cbn. rewrite H. reflexivity.
Qed.

Lemma post_claim_duplicate v r0 rest :
  validate W b = Next v ->
  filter (fun r => Claims.transaction_hash r = prepareValue (hash v)) (claims store)
    = r0 :: rest ->
  post_claim = (DuplicateTransaction (Claims.id r0) (Claims.created_at r0),
                {| committed := store; transaction := None;
                   sent := [BEGIN;
                            SELECT_claims_by_transaction_hash (prepareValue (hash v));
                            ROLLBACK] |}).
Proof. intros H E. rewrite (post_claim_valid v H). eapply submit_duplicate, E. Qed.

Lemma post_claim_already v r0 rest :
  validate W b = Next v ->
  filter (fun r => Claims.transaction_hash r = prepareValue (hash v)) (claims store)
    = [] ->
  filter (fun r => Claims.user_address r = claimUserAddress v
                   ∧ Claims.token_type r = kind v) (claims store)
    = r0 :: rest ->
  post_claim = (AlreadyClaimed (Claims.id r0) (Claims.created_at r0),
                {| committed := store; transaction := None;
                   sent := [BEGIN;
                            SELECT_claims_by_transaction_hash (prepareValue (hash v));
                            SELECT_claims_by_user_and_token (claimUserAddress v) (kind v);
                            ROLLBACK] |}).
Proof.
  intros H E1 E2. rewrite (post_claim_valid v H). eapply submit_already; eauto.
Qed.

Lemma post_claim_success v :
  validate W b = Next v ->
  filter (fun r => Claims.transaction_hash r = prepareValue (hash v)) (claims store)
    = [] ->
  filter (fun r => Claims.user_address r = claimUserAddress v
                   ∧ Claims.token_type r = kind v) (claims store)
    = [] ->
  exists data s,
    post_claim = (Success data, s)
    /\ committed s = store_after Number_toString e v store
    /\ transaction s = None
    /\ Data.amountClaimed data = claimAmount v
    /\ Data.novaReceived data = Num.mul (claimAmount v) (rate v).
Proof.
  intros H E1 E2. rewrite (post_claim_valid v H). apply submit_success; assumption.
Qed.

End Cases.

(** ** What a request that passed the checks looks like *)

Lemma not_le_zero_positive (x : num) :
  Num.isNaN x = false -> Num.le x Num.pzero = false -> Num.gt x Num.pzero = true.
Proof. destruct x as [[]|[]| |[] m e]; cbn; intros; congruence. Qed.

Lemma validate_Next W b v :
  validate W b = Next v ->
  missing_fields b = false
  /\ (exists t a,
        Body.tokenType b = JStr t /\ Body.userAddress b = JStr a
        /\ kind v = toUpperCase t /\ claimUserAddress v = toLowerCase a)
  /\ kind v ∈ ["TARAL"; "RVLNG"]
  /\ claimAmount v = parseFloat (Body.amount b)
  /\ Num.gt (claimAmount v) Num.pzero = true
  /\ rate v = or_else (parseFloat (Body.conversionRate b)) one
  /\ Num.gt (rate v) Num.pzero = true
  /\ hash v = Body.transactionHash b
  /\ stamp v = Body.timestamp b.
Proof.
  unfold validate. destruct (missing_fields b); [discriminate|].
  destruct (Body.tokenType b) as [| | | |t]; try discriminate. cbn.
  case_bool_decide as Hk; [|discriminate]. cbn.
  destruct (Num.isNaN (parseFloat (Body.amount b))) eqn:A1; [discriminate|].
  destruct (Num.le (parseFloat (Body.amount b)) Num.pzero) eqn:A2; [discriminate|].
  cbn.
  destruct (Num.isNaN (or_else (parseFloat (Body.conversionRate b)) one)) eqn:R1;
    [discriminate|].
  destruct (Num.le (or_else (parseFloat (Body.conversionRate b)) one) Num.pzero) eqn:R2;
    [discriminate|].
  cbn. destruct (Body.userAddress b) as [| | | |a]; try discriminate. cbn.
  unfold getUserAllocation. cbn.
  destruct W as [allocations|]; [|discriminate].
  destruct (get_property allocations (toLowerCase (toLowerCase a))); cbn;
    try discriminate.
  all: match goal with
       | |- context [if ?c then _ else _] => destruct c; [discriminate|]
       end.
  all: intros [= <-]; cbn; repeat split; eauto 6 using not_le_zero_positive.
Qed.

(** ** Invariants of the reachable stores *)

Section Invariants.

Variable Number_toString : num -> string.

Local Abbreviation post_claim := (post_claim Number_toString).
Local Abbreviation prepareValue := (prepareValue Number_toString).
Local Abbreviation reachable := (reachable Number_toString).

(** A call leaves the store as it was or commits one new record, whose
    reference and whose wallet and kind no record had. *)
Lemma post_claim_store W e b d :
  committed (snd (post_claim W e b d)) = d
  \/ exists v,
       validate W b = Next v
       /\ (prepareValue (hash v) ∉ Claims.transaction_hash <$> claims d)
       /\ ((claimUserAddress v, kind v) ∉ pair_of <$> claims d)
       /\ committed (snd (post_claim W e b d)) = store_after Number_toString e v d.
Proof.
  destruct (validate W b) as [v|r|m] eqn:V.
  - destruct (filter (fun r => Claims.transaction_hash r = prepareValue (hash v))
                (claims d)) as [|r0 rest] eqn:E1.
    + destruct (filter (fun r => Claims.user_address r = claimUserAddress v
                                 ∧ Claims.token_type r = kind v) (claims d))
        as [|r0 rest] eqn:E2.
      * right. exists v.
        destruct (post_claim_success Number_toString W e b d v V E1 E2)
          as (data & s & -> & Hs & _).
        split; [reflexivity|]. split; [|split; [|exact Hs]].
        -- apply filter_nil_fresh, E1.
        -- apply (filter_nil_fresh pair_of).
           rewrite <- E2. apply list_filter_iff. intros c. unfold pair_of.
           split; [intros [= -> ->]; auto|intros [-> ->]; reflexivity].
      * left. erewrite post_claim_already by eauto. reflexivity.
    + left. erewrite post_claim_duplicate by eauto. reflexivity.
  - left. erewrite post_claim_rejected by eauto. reflexivity.
  - left. erewrite post_claim_thrown by eauto. reflexivity.
Qed.

Lemma reachable_invariant d :
  reachable d ->
  unique_hashes d /\ unique_pairs d
  /\ forall c, c ∈ claims d ->
       derived c /\ Num.gt (Claims.conversion_rate c) Num.pzero = true.
Proof.
  induction 1 as [|W e b d Hd (IH1 & IH2 & IH3)].
  - split; [apply NoDup_nil_2|]. split; [apply NoDup_nil_2|].
    intros c Hc. inversion Hc.
  - destruct (post_claim_store W e b d) as [->|(v & V & F1 & F2 & ->)];
      [auto|].
    unfold unique_hashes, unique_pairs, store_after. cbn [claims].
    rewrite !fmap_app. cbn.
    split; [apply NoDup_snoc_fresh; assumption|].
    split; [apply NoDup_snoc_fresh; assumption|].
    intros c Hc. apply elem_of_app in Hc as [Hc|Hc]; [auto|].
    apply list_elem_of_singleton in Hc as ->.
    split; [reflexivity|]. cbn. apply validate_Next in V. tauto.
Qed.

End Invariants.

Lemma filter_at_most_one {A B} `{EqDecision B} (f : A -> B) (l : list A) (y : B) :
  NoDup (f <$> l) -> length (filter (fun x => f x = y) l) <= 1.
Proof.
  intros Hnd.
  destruct (filter (fun x => f x = y) l) as [|x xs] eqn:E; [cbn; lia|].
  assert (Hx : x ∈ filter (fun x => f x = y) l) by (rewrite E; left).
  apply list_elem_of_filter in Hx as [<- Hx].
  rewrite (filter_unique f l x Hnd Hx) in E. injection E as <-. cbn. lia.
Qed.

(** ** Reading a response back *)

Lemma validate_Return W b r : validate W b = Return r -> is_rejection r = true.
Proof.
  unfold validate, getUserAllocation, method_toUpperCase, method_toLowerCase,
    outcome_bind.
  intros H. repeat case_match; simplify_eq; reflexivity.
Qed.

Section Inversion.

Variable Number_toString : num -> string.
Variable W : option (gmap string allocation).
Variable e : env.
Variable b : Body.t.
Variable store : db.

Local Abbreviation post_claim := (post_claim Number_toString W e b store).
Local Abbreviation prepareValue := (prepareValue Number_toString).

Lemma post_claim_Success_inv data :
  fst post_claim = Success data ->
  exists v,
    validate W b = Next v
    /\ committed (snd post_claim) = store_after Number_toString e v store
    /\ Data.amountClaimed data = claimAmount v
    /\ Data.novaReceived data = Num.mul (claimAmount v) (rate v).
Proof.
  destruct (validate W b) as [v|r|m] eqn:V.
  - destruct (filter (fun r => Claims.transaction_hash r = prepareValue (hash v))
                (claims store)) as [|r0 rest] eqn:E1.
    + destruct (filter (fun r => Claims.user_address r = claimUserAddress v
                                 ∧ Claims.token_type r = kind v) (claims store))
        as [|r0 rest] eqn:E2.
      * destruct (post_claim_success Number_toString W e b store v V E1 E2)
          as (data' & s & -> & Hs & _ & Ha & Hn).
        cbn. intros [= <-]. eauto.
      * erewrite post_claim_already by eauto. discriminate.
    + erewrite post_claim_duplicate by eauto. discriminate.
  - erewrite post_claim_rejected by eauto. cbn. intros ->.
    apply validate_Return in V. discriminate.
  - erewrite post_claim_thrown by eauto. discriminate.
Qed.

(** A rejection by one of the six checks is what [validate] returned. *)
Lemma post_claim_rejection :
  validate W b = Return (fst post_claim) \/ is_rejection (fst post_claim) = false.
Proof.
  destruct (validate W b) as [v|r'|m] eqn:V.
  - right.
    destruct (filter (fun r => Claims.transaction_hash r = prepareValue (hash v))
                (claims store)) as [|r0 rest] eqn:E1.
    + destruct (filter (fun r => Claims.user_address r = claimUserAddress v
                                 ∧ Claims.token_type r = kind v) (claims store))
        as [|r0 rest] eqn:E2.
      * destruct (post_claim_success Number_toString W e b store v V E1 E2)
          as (data' & s & -> & _). reflexivity.
      * erewrite post_claim_already by eauto. reflexivity.
    + erewrite post_claim_duplicate by eauto. reflexivity.
  - left. erewrite post_claim_rejected by eauto. reflexivity.
  - right. erewrite post_claim_thrown by eauto. reflexivity.
Qed.

End Inversion.

(** ** The order of the checks *)

(** The checks of lines 104-160 run in the order of the source, and the
    first one that fails decides the response. *)
Lemma checks_in_order W b :
  (missing_fields b = true -> validate W b = Return MissingFields)
  /\ (forall t,
        missing_fields b = false ->
        Body.tokenType b = JStr t ->
        let claimAmount := parseFloat (Body.amount b) in
        let rate := or_else (parseFloat (Body.conversionRate b)) one in
        let invalid_kind := bool_decide (toUpperCase t ∉ ["TARAL"; "RVLNG"]) in
        let invalid_amount := Num.isNaN claimAmount || Num.le claimAmount Num.pzero in
        let invalid_rate := Num.isNaN rate || Num.le rate Num.pzero in
        (invalid_kind = true -> validate W b = Return InvalidTokenKind)
        /\ (invalid_kind = false -> invalid_amount = true ->
            validate W b = Return InvalidAmount)
        /\ (invalid_kind = false -> invalid_amount = false -> invalid_rate = true ->
            validate W b = Return InvalidRate)
        /\ (forall a allocations,
              invalid_kind = false -> invalid_amount = false ->
              invalid_rate = false ->
              Body.userAddress b = JStr a ->
              W = Some allocations ->
              get_property allocations (toLowerCase a) = Missing ->
              validate W b = Return UnknownWallet)
        /\ (forall a allocations expected,
              invalid_kind = false -> invalid_amount = false ->
              invalid_rate = false ->
              Body.userAddress b = JStr a ->
              W = Some allocations ->
              getUserAllocation (R := response) W (JStr (toLowerCase a)) (JStr t)
                = Next expected ->
              expected <> Null ->
              Num.gt (Num.abs (Num.sub claimAmount (to_number expected))) tolerance
                = true ->
              validate W b = Return (AllocationMismatch expected claimAmount))).
Proof.
  split.
  - intros H. unfold validate. rewrite H. reflexivity.
  - intros t Hm Ht. cbn zeta. unfold validate. rewrite Hm, Ht. cbn.
    assert (Hk : bool_decide (toUpperCase t ∉ ["TARAL"; "RVLNG"]) = false ->
                 bool_decide (toUpperCase t ∈ ["TARAL"; "RVLNG"]) = true).
    { intros H. apply bool_decide_eq_false in H. apply bool_decide_eq_true_2.
      destruct (decide (toUpperCase t ∈ ["TARAL"; "RVLNG"])); tauto. }
    repeat split.
    + intros H. apply bool_decide_eq_true in H.
      rewrite (bool_decide_eq_false_2 _ H). reflexivity.
    + intros H1 ->. rewrite (Hk H1). reflexivity.
    + intros H1 -> ->. rewrite (Hk H1). reflexivity.
    + intros a allocations H1 -> -> -> -> Hp. rewrite (Hk H1). cbn.
      rewrite toLowerCase_idempotent, Hp. reflexivity.
    + intros a allocations expected H1 -> -> -> -> Hg Hn Hgt. rewrite (Hk H1).
      cbn. cbn in Hg. rewrite Hg. cbn.
      destruct expected; [contradiction| |]; rewrite Hgt; reflexivity.
Qed.

(** The falsy values of the model. *)
Lemma falsy_values v :
  to_boolean v = false <->
  v ∈ [JUndefined; JNull; JBool false; JStr EmptyString;
       JNum (S754_zero false); JNum (S754_zero true); JNum S754_nan].
Proof.
  split.
  - destruct v as [| |[]|[[]|[]| |[] m x]|[|c s]]; cbn; intros H;
      try discriminate H; set_solver.
  - intros H. repeat (apply elem_of_cons in H as [->|H]; [reflexivity|]).
    inversion H.
Qed.

(** ** The allocation report *)

Lemma add_claimed_taral (l : list Claims.row) (acc : allocation) :
  taral (foldl add_claimed acc l)
  = foldl (fun x c => Num.add x (parseFloat (JNum (Claims.amount c)))) (taral acc)
      (filter (fun c => Claims.token_type c = "TARAL") l).
Proof.
  revert acc. induction l as [|c l IH]; intros acc; [reflexivity|].
  cbn [foldl]. rewrite IH, filter_cons. unfold add_claimed.
  destruct (String.eqb_spec (Claims.token_type c) "TARAL") as [E|E].
  - rewrite decide_True by exact E. reflexivity.
  - rewrite decide_False by exact E.
    destruct (String.eqb (Claims.token_type c) "RVLNG"); reflexivity.
Qed.

Lemma add_claimed_rvlng (l : list Claims.row) (acc : allocation) :
  rvlng (foldl add_claimed acc l)
  = foldl (fun x c => Num.add x (parseFloat (JNum (Claims.amount c)))) (rvlng acc)
      (filter (fun c => Claims.token_type c = "RVLNG") l).
Proof.
  revert acc. induction l as [|c l IH]; intros acc; [reflexivity|].
  cbn [foldl]. rewrite IH, filter_cons. unfold add_claimed.
  destruct (String.eqb_spec (Claims.token_type c) "TARAL") as [E|E].
  - rewrite decide_False by (rewrite E; discriminate). reflexivity.
  - destruct (String.eqb_spec (Claims.token_type c) "RVLNG") as [E'|E'].
    + rewrite decide_True by exact E'. reflexivity.
    + rewrite decide_False by exact E'. reflexivity.
Qed.

Lemma claimed_of_kind (kind address : string) (d : db) :
  foldl (fun x c => Num.add x (parseFloat (JNum (Claims.amount c)))) Num.pzero
    (filter (fun c => Claims.token_type c = kind)
       (filter (fun r => Claims.user_address r = address) (claims d)))
  = claimed_sum kind address d.
Proof.
  unfold claimed_sum. rewrite list_filter_filter. f_equal.
  apply list_filter_iff. intros c. tauto.
Qed.

(** * The claims of the specification *)

(** C1. In a store whose transaction references are unique, as they are in
    every reachable store, [submit] answers a request that carries the
    reference of a record [c] of the store with the duplicate-transaction
    conflict, which names the identifier and the creation time of [c]; the
    store is left as it was, and [c] is still its one record with that
    reference. The rest of the payload plays no part. [submit] is what the
    handler does with every request that its checks let through. *)
Theorem duplicate_transaction_conflict Number_toString e v store c :
  unique_hashes store ->
  c ∈ claims store ->
  Claims.transaction_hash c = prepareValue Number_toString (hash v) ->
  fst (submit Number_toString e v store)
    = DuplicateTransaction (Claims.id c) (Claims.created_at c)
  /\ committed (snd (submit Number_toString e v store)) = store
  /\ filter (fun r => Claims.transaction_hash r = prepareValue Number_toString (hash v))
       (claims (committed (snd (submit Number_toString e v store)))) = [c]
  /\ (forall W b,
        validate W b = Next v ->
        post_claim Number_toString W e b store = submit Number_toString e v store).
Proof.
  intros Hu Hc Hh.
  pose proof (filter_unique Claims.transaction_hash _ c Hu Hc) as E.
  rewrite Hh in E.
  pose proof (submit_duplicate Number_toString e v store c [] E) as Hs.
  split; [rewrite Hs; reflexivity|].
  split; [rewrite Hs; reflexivity|].
  split; [rewrite Hs; exact E|].
  intros W b. apply post_claim_valid.
Qed.

Lemma duplicate_transaction_conflict_witness :
  fst (submit no_digits clock_0 other_payload store_50)
    = DuplicateTransaction (Claims.id record_50) (Claims.created_at record_50)
  /\ committed (snd (submit no_digits clock_0 other_payload store_50)) = store_50
  /\ filter (fun r => Claims.transaction_hash r
                      = prepareValue no_digits (hash other_payload))
       (claims (committed (snd (submit no_digits clock_0 other_payload store_50))))
     = [record_50]
  /\ (forall W b,
        validate W b = Next other_payload ->
        post_claim no_digits W clock_0 b store_50
        = submit no_digits clock_0 other_payload store_50).
Proof.
  apply (duplicate_transaction_conflict no_digits clock_0 other_payload store_50
           record_50).
  - unfold unique_hashes. vm_compute. apply NoDup_singleton.
  - vm_compute. left.
  - vm_compute. reflexivity.
Defined.



(** ** Two calls at once *)

Section Halves.

Variable Number_toString : num -> string.
Variable e : env.
Variable v : valid_claim.

Local Abbreviation prepareValue := (prepareValue Number_toString).

(** The transaction of the handler is its lookups followed by the rest. *)
Lemma ledger_in_two_steps (s : session) :
  ledger Number_toString e v s
  = (lookups Number_toString v ;; record_claim Number_toString insert_claims e v)%M s.
Proof.
  unfold ledger, lookups, record_claim, bind, select_claims_by_transaction_hash,
    select_claims_by_user_and_token.
  destruct (filter _ (claims (current s))) as [|r0 rest]; [|reflexivity].
  cbn [claims current send].
  destruct (filter _ (claims (current (send _ s)))) as [|r0 rest]; reflexivity.
Qed.

(** Lookups that find nothing leave the call ready to write. *)
Lemma lookups_pass (store : db) :
  filter (fun r => Claims.transaction_hash r = prepareValue (hash v)) (claims store)
    = [] ->
  filter (fun r => Claims.user_address r = claimUserAddress v
                   ∧ Claims.token_type r = kind v) (claims store)
    = [] ->
  (query_BEGIN ;; lookups Number_toString v)%M
    {| committed := store; transaction := None; sent := [] |}
  = (Next tt,
     {| committed := store; transaction := Some store;
        sent := [BEGIN;
                 SELECT_claims_by_transaction_hash (prepareValue (hash v));
                 SELECT_claims_by_user_and_token (claimUserAddress v) (kind v)] |}).
Proof.
  intros E1 E2.
  unfold lookups, bind, query_BEGIN, select_claims_by_transaction_hash. cbn.
  rewrite E1. unfold select_claims_by_user_and_token. cbn. rewrite E2. reflexivity.
Qed.

(** The statements after the lookups do not look for the reference or the
    pair again: on whatever store they run, they insert the record and the
    call succeeds. *)
Lemma record_claim_succeeds (shared : db) (sent0 : list statement) :
  exists data s,
    settle (record_claim Number_toString insert_claims e v
              {| committed := shared; transaction := Some shared; sent := sent0 |})
    = (Success data, s)
    /\ committed s = store_after Number_toString e v shared
    /\ transaction s = None.
Proof.
  pose proof (users_after_has_account e v shared) as Hacc.
  unfold settle, record_claim, bind, select_users_by_address. cbn.
  unfold users_after in Hacc. fold (claimTimestamp_of e v).
  destruct (filter _ (users shared)) as [|u us] eqn:E3; cbn;
    (destruct (String.eqb (kind v) "TARAL") eqn:K1;
     [|destruct (String.eqb (kind v) "RVLNG") eqn:K2]); cbn.
  all: rewrite ?K1, ?K2 in Hacc.
  all: match type of Hacc with
       | ?X <> [] =>
           destruct X as [|u' us'] eqn:E4; [exfalso; apply Hacc; reflexivity|]
       end.
  all: eexists _, _; split; [reflexivity|].
  all: cbn; repeat split.
  all: unfold store_after, users_after; rewrite ?E3, ?E4, ?K1, ?K2; reflexivity.
Qed.

(** On a table that keeps the references unique, the rest of the call is
    the same as long as no row carries the reference, and ends in the
    [catch] block, with the store as it was, as soon as one does. *)
Lemma record_claim_unique_fresh (shared : db) (sent0 : list statement) :
  filter (fun r => Claims.transaction_hash r = prepareValue (hash v)) (claims shared)
    = [] ->
  record_claim Number_toString insert_claims_unique e v
    {| committed := shared; transaction := Some shared; sent := sent0 |}
  = record_claim Number_toString insert_claims e v
      {| committed := shared; transaction := Some shared; sent := sent0 |}.
Proof.
  intros E1.
  unfold record_claim, bind, select_users_by_address, insert_claims_unique. cbn.
  destruct (filter _ (users shared)) as [|u us]; cbn; rewrite E1; reflexivity.
Qed.

Lemma record_claim_unique_refused (shared : db) (sent0 : list statement) r0 rest :
  filter (fun r => Claims.transaction_hash r = prepareValue (hash v)) (claims shared)
    = r0 :: rest ->
  exists message s,
    settle (record_claim Number_toString insert_claims_unique e v
              {| committed := shared; transaction := Some shared; sent := sent0 |})
    = (InternalError message, s)
    /\ committed s = shared
    /\ transaction s = None
    /\ last (sent s) = Some ROLLBACK.
Proof.
  intros E1.
  unfold settle, record_claim, bind, select_users_by_address, insert_claims_unique.
  cbn.
  destruct (filter _ (users shared)) as [|u us]; cbn; rewrite E1; cbn;
    eexists _, _; (split; [reflexivity|]); cbn; repeat split;
    rewrite last_snoc; reflexivity.
Qed.

(** A call that is held and resumed while no other call commits is the
    call of the handler. *)
Lemma resume_alone (store : db) :
  resume Number_toString insert_claims e v store
    ((query_BEGIN ;; lookups Number_toString v)%M
       {| committed := store; transaction := None; sent := [] |})
  = submit Number_toString e v store.
Proof.
  unfold submit, run, resume, settle.
  change ((query_BEGIN;; ledger Number_toString e v)%M
            {| committed := store; transaction := None; sent := [] |})
    with (ledger Number_toString e v
            {| committed := store; transaction := Some store; sent := [BEGIN] |}).
  rewrite ledger_in_two_steps.
  change ((query_BEGIN;; lookups Number_toString v)%M
            {| committed := store; transaction := None; sent := [] |})
    with (lookups Number_toString v
            {| committed := store; transaction := Some store; sent := [BEGIN] |}).
  unfold bind at 1.
  unfold lookups, bind, select_claims_by_transaction_hash,
    select_claims_by_user_and_token, query_ROLLBACK, return_, ret. cbn.
  destruct (filter _ (claims store)) as [|r0 rest]; [|reflexivity]. cbn.
  destruct (filter _ (claims store)) as [|r0 rest]; reflexivity.
Qed.

End Halves.

(** C3. Two calls that carry the same transaction reference, one that no
    record carries, and whose wallet and kind have no record, can both
    succeed: when both have run their lookups before either has written,
    each inserts its record, each answers with a success and none with the
    duplicate-transaction conflict, and the store ends with two records
    under the one reference. Run one after the other, the second of the two
    gets the conflict. Were the table to keep the references unique, the
    second call of the two at once would end in the [catch] block: it
    answers with the internal error, not with the conflict, after a
    rollback, and the store holds the record of the first. *)
Theorem concurrent_duplicates_both_succeed Number_toString e1 e2 v1 v2 store :
  prepareValue Number_toString (hash v1) = prepareValue Number_toString (hash v2) ->
  (prepareValue Number_toString (hash v1) ∉ Claims.transaction_hash <$> claims store) ->
  ((claimUserAddress v1, kind v1) ∉ pair_of <$> claims store) ->
  ((claimUserAddress v2, kind v2) ∉ pair_of <$> claims store) ->
  let ends := both_look_then_write Number_toString insert_claims e1 e2 v1 v2 store in
  let final := committed (snd (snd ends)) in
  let guarded :=
    both_look_then_write Number_toString insert_claims_unique e1 e2 v1 v2 store in
  (exists data1 data2,
      fst (fst ends) = Success data1 /\ fst (snd ends) = Success data2)
  /\ final = store_after Number_toString e2 v2 (store_after Number_toString e1 v1 store)
  /\ filter (fun c => Claims.transaction_hash c = prepareValue Number_toString (hash v1))
       (claims final)
     = [inserted Number_toString e1 v1 store;
        inserted Number_toString e2 v2 (store_after Number_toString e1 v1 store)]
  /\ ~ unique_hashes final
  /\ (exists existing created,
        fst (submit Number_toString e2 v2
               (committed (snd (submit Number_toString e1 v1 store))))
        = DuplicateTransaction existing created)
  /\ (exists data1 message,
        fst (fst guarded) = Success data1
        /\ fst (snd guarded) = InternalError message
        /\ last (sent (snd (snd guarded))) = Some ROLLBACK
        /\ committed (snd (snd guarded)) = store_after Number_toString e1 v1 store).
Proof.
  intros Hsame F1 P1 P2. cbn zeta.
  pose proof (fresh_filter_nil Claims.transaction_hash _ _ F1) as E1.
  pose proof (proj2 (fresh_pair_iff _ _ _) P1) as E2.
  pose proof (proj2 (fresh_pair_iff _ _ _) P2) as E2'.
  assert (E1' : filter (fun r => Claims.transaction_hash r
                                 = prepareValue Number_toString (hash v2))
                  (claims store) = []) by (rewrite <- Hsame; exact E1).
  assert (Hd : filter (fun r => Claims.transaction_hash r
                                = prepareValue Number_toString (hash v2))
                 (claims (store_after Number_toString e1 v1 store))
               = [inserted Number_toString e1 v1 store]).
  { cbn [claims store_after]. rewrite filter_app, E1'.
    rewrite filter_cons_True by (cbn; congruence). reflexivity. }
  unfold both_look_then_write.
  rewrite (lookups_pass Number_toString v1 store E1 E2).
  rewrite (lookups_pass Number_toString v2 store E1' E2').
  unfold resume, sees. cbn [transaction sent fst snd].
  rewrite (record_claim_unique_fresh Number_toString e1 v1 store _ E1).
  destruct (record_claim_succeeds Number_toString e1 v1 store
              [BEGIN;
               SELECT_claims_by_transaction_hash
                 (prepareValue Number_toString (hash v1));
               SELECT_claims_by_user_and_token (claimUserAddress v1) (kind v1)])
    as (data1 & s1 & -> & C1 & _).
  cbn [fst snd]. rewrite C1.
  destruct (record_claim_succeeds Number_toString e2 v2
              (store_after Number_toString e1 v1 store)
              [BEGIN;
               SELECT_claims_by_transaction_hash
                 (prepareValue Number_toString (hash v2));
               SELECT_claims_by_user_and_token (claimUserAddress v2) (kind v2)])
    as (data2 & s2 & -> & C2 & _).
  destruct (record_claim_unique_refused Number_toString e2 v2
              (store_after Number_toString e1 v1 store)
              [BEGIN;
               SELECT_claims_by_transaction_hash
                 (prepareValue Number_toString (hash v2));
               SELECT_claims_by_user_and_token (claimUserAddress v2) (kind v2)]
              _ _ Hd)
    as (message & s3 & -> & C3 & _ & L3).
  cbn [fst snd]. rewrite C2.
  assert (Hf : filter (fun c => Claims.transaction_hash c
                                = prepareValue Number_toString (hash v1))
                 (claims (store_after Number_toString e2 v2
                            (store_after Number_toString e1 v1 store)))
               = [inserted Number_toString e1 v1 store;
                  inserted Number_toString e2 v2
                    (store_after Number_toString e1 v1 store)]).
  { cbn [claims store_after]. rewrite !filter_app, E1.
    rewrite !filter_cons_True by (cbn; congruence). reflexivity. }
  split; [eauto|]. split; [reflexivity|]. split; [exact Hf|]. split; [|split].
  - intros Hu.
    pose proof (filter_at_most_one Claims.transaction_hash _
                  (prepareValue Number_toString (hash v1)) Hu) as Hl.
    rewrite Hf in Hl. cbn in Hl. lia.
  - destruct (submit_success Number_toString e1 v1 store E1 E2)
      as (d1 & t1 & -> & Hc & _).
    cbn [snd]. rewrite Hc.
    rewrite (submit_duplicate Number_toString e2 v2 _ _ _ Hd). eauto.
  - exists data1, message. auto.
Qed.

Lemma concurrent_duplicates_both_succeed_witness :
  let ends :=
    both_look_then_write no_digits insert_claims clock_0 clock_0 valid_50 valid_50
      empty_db in
  let final := committed (snd (snd ends)) in
  let guarded :=
    both_look_then_write no_digits insert_claims_unique clock_0 clock_0 valid_50
      valid_50 empty_db in
  (exists data1 data2,
      fst (fst ends) = Success data1 /\ fst (snd ends) = Success data2)
  /\ final = store_after no_digits clock_0 valid_50
               (store_after no_digits clock_0 valid_50 empty_db)
  /\ filter (fun c => Claims.transaction_hash c = prepareValue no_digits (hash valid_50))
       (claims final)
     = [inserted no_digits clock_0 valid_50 empty_db;
        inserted no_digits clock_0 valid_50
          (store_after no_digits clock_0 valid_50 empty_db)]
  /\ ~ unique_hashes final
  /\ (exists existing created,
        fst (submit no_digits clock_0 valid_50
               (committed (snd (submit no_digits clock_0 valid_50 empty_db))))
        = DuplicateTransaction existing created)
  /\ (exists data1 message,
        fst (fst guarded) = Success data1
        /\ fst (snd guarded) = InternalError message
        /\ last (sent (snd (snd guarded))) = Some ROLLBACK
        /\ committed (snd (snd guarded)) = store_after no_digits clock_0 valid_50 empty_db).
Proof.
  apply (concurrent_duplicates_both_succeed no_digits clock_0 clock_0 valid_50 valid_50
           empty_db).
  - reflexivity.
  - apply not_elem_of_nil.
  - apply not_elem_of_nil.
  - apply not_elem_of_nil.
Defined.

(** C4. The checks run in the order of the claim ([checks_in_order]), but
    the wallet check does not report every address that has no entry: the
    read [WALLET_ALLOCATIONS[address]] finds the members of
    [Object.prototype] too. The registry of the scenario has no entry for
    the address [constructor], and a claim of any positive amount from that
    address is accepted and recorded. *)
Theorem inherited_key_is_not_unknown Number_toString e :
  registry_50 !! toLowerCase "constructor" = None
  /\ exists data,
       fst (post_claim Number_toString (Some registry_50) e
              (with_address (JStr "constructor") (with_amount (JStr "7") request_50))
              empty_db) = Success data
       /\ Data.userAddress data = "constructor"
       /\ Data.amountClaimed data = Num.of_Z 7.
Proof.
  split; [vm_compute; reflexivity|].
  eexists. split; [vm_compute; reflexivity|]. split; reflexivity.
Qed.

(** C5 as stated fails three times. A rate field that reads as zero, or
    that does not read as a number, is not rejected: the claim goes through
    at rate 1. A rate field that reads as a number that is not finite,
    [Infinity], is not rejected either: the claim goes through at that rate,
    with an infinite derived amount. And the one rejection there is, of a
    negative rate, comes after [BEGIN] was sent. *)
Lemma zero_or_infinite_rate_is_not_rejected :
  (parseFloat (JStr "0") = Num.pzero
   /\ exists data,
        fst (post_claim no_digits (Some registry_50) clock_0
               (with_rate (JStr "0") request_50) empty_db) = Success data
        /\ Data.novaReceived data = Num.mul (Data.amountClaimed data) one)
  /\ (parseFloat (JStr "abc") = Num.NaN
      /\ exists data,
           fst (post_claim no_digits (Some registry_50) clock_0
                  (with_rate (JStr "abc") request_50) empty_db) = Success data
           /\ Data.novaReceived data = Num.mul (Data.amountClaimed data) one)
  /\ (parseFloat (JStr "Infinity") = S754_infinity false
      /\ exists data c,
           fst (post_claim no_digits (Some registry_50) clock_0
                  (with_rate (JStr "Infinity") request_50) empty_db) = Success data
           /\ Data.novaReceived data = S754_infinity false
           /\ claims (committed (snd (post_claim no_digits (Some registry_50) clock_0
                                        (with_rate (JStr "Infinity") request_50)
                                        empty_db))) = [c]
           /\ Claims.conversion_rate c = S754_infinity false)
  /\ (fst (post_claim no_digits (Some registry_50) clock_0
             (with_rate (JStr "-2") request_50) empty_db) = InvalidRate
      /\ sent (snd (post_claim no_digits (Some registry_50) clock_0
                      (with_rate (JStr "-2") request_50) empty_db)) = [BEGIN]).
Proof.
  split; [split; [reflexivity|eexists; split; vm_compute; reflexivity]|].
  split; [split; [reflexivity|eexists; split; vm_compute; reflexivity]|].
  split; [split; [reflexivity|eexists _, _; repeat split; vm_compute; reflexivity]|].
  vm_compute. auto.
Qed.

(** C5, amended. When the claim succeeds and the rate field is absent, the
    record carries the rate 1; when it succeeds and the field reads as a
    number above zero, finite or not, the record carries that number. When
    the first three checks pass and the field reads as a number below zero,
    the request is rejected as an invalid rate, after [BEGIN], which is the
    one statement the handler has sent by then, so before any statement that
    reads or writes a row, and the store is as it was. *)
Theorem conversion_rate_rule Number_toString W e b store :
  (forall data,
      fst (post_claim Number_toString W e b store) = Success data ->
      Body.conversionRate b = JUndefined ->
      exists c,
        claims (committed (snd (post_claim Number_toString W e b store)))
          = (claims store ++ [c])%list
        /\ Claims.conversion_rate c = one)
  /\ (forall data,
        fst (post_claim Number_toString W e b store) = Success data ->
        Num.gt (parseFloat (Body.conversionRate b)) Num.pzero = true ->
        exists c,
          claims (committed (snd (post_claim Number_toString W e b store)))
            = (claims store ++ [c])%list
          /\ Claims.conversion_rate c = parseFloat (Body.conversionRate b))
  /\ (forall t,
        missing_fields b = false ->
        Body.tokenType b = JStr t ->
        toUpperCase t ∈ ["TARAL"; "RVLNG"] ->
        Num.gt (parseFloat (Body.amount b)) Num.pzero = true ->
        Num.lt (parseFloat (Body.conversionRate b)) Num.pzero = true ->
        fst (post_claim Number_toString W e b store) = InvalidRate
        /\ sent (snd (post_claim Number_toString W e b store)) = [BEGIN]
        /\ Forall (fun q => touches_rows q = false)
             (sent (snd (post_claim Number_toString W e b store)))
        /\ committed (snd (post_claim Number_toString W e b store)) = store).
Proof.
  split; [|split].
  - intros data Hs Hr.
    apply post_claim_Success_inv in Hs as (v & V & -> & _).
    exists (inserted Number_toString e v store). split; [reflexivity|]. cbn.
    apply validate_Next in V as (_ & _ & _ & _ & _ & -> & _).
    rewrite Hr. reflexivity.
  - intros data Hs Hr.
    apply post_claim_Success_inv in Hs as (v & V & -> & _).
    exists (inserted Number_toString e v store). split; [reflexivity|]. cbn.
    apply validate_Next in V as (_ & _ & _ & _ & _ & -> & _).
    apply or_else_truthy, positive_is_valid, Hr.
  - intros t Hm Ht Hk Ha Hr.
    assert (V : validate W b = Return InvalidRate).
    { destruct (checks_in_order W b) as [_ H]. specialize (H t Hm Ht). cbn zeta in H.
      destruct H as (_ & _ & H & _).
      apply positive_is_valid in Ha as (Ha1 & Ha2 & _).
      apply negative_is_truthy in Hr as (Hr1 & Hr2 & Hr3).
      apply H.
      - apply bool_decide_eq_false_2. auto.
      - rewrite Ha1, Ha2. reflexivity.
      - rewrite (or_else_truthy _ _ Hr3), Hr1, Hr2. reflexivity. }
    rewrite (post_claim_rejected Number_toString W e b store _ V). cbn.
    repeat split. repeat constructor.
Qed.

Lemma conversion_rate_rule_witness :
  (exists c,
      claims (committed (snd (post_claim no_digits (Some registry_50) clock_0
                                (with_rate JUndefined request_50) empty_db)))
        = (claims empty_db ++ [c])%list
      /\ Claims.conversion_rate c = one)
  /\ (exists c,
        claims (committed (snd (post_claim no_digits (Some registry_50) clock_0
                                  request_50 empty_db)))
          = (claims empty_db ++ [c])%list
        /\ Claims.conversion_rate c = parseFloat (Body.conversionRate request_50))
  /\ (fst (post_claim no_digits (Some registry_50) clock_0
             (with_rate (JStr "-2") request_50) empty_db) = InvalidRate
      /\ sent (snd (post_claim no_digits (Some registry_50) clock_0
                      (with_rate (JStr "-2") request_50) empty_db)) = [BEGIN]
      /\ Forall (fun q => touches_rows q = false)
           (sent (snd (post_claim no_digits (Some registry_50) clock_0
                         (with_rate (JStr "-2") request_50) empty_db)))
      /\ committed (snd (post_claim no_digits (Some registry_50) clock_0
                          (with_rate (JStr "-2") request_50) empty_db)) = empty_db).
Proof.
  split; [|split].
  - eapply (proj1 (conversion_rate_rule no_digits (Some registry_50) clock_0
                     (with_rate JUndefined request_50) empty_db)).
    + vm_compute. reflexivity.
    + reflexivity.
  - eapply (proj1 (proj2 (conversion_rate_rule no_digits (Some registry_50) clock_0
                            request_50 empty_db))).
    + vm_compute. reflexivity.
    + vm_compute. reflexivity.
  - apply (proj2 (proj2 (conversion_rate_rule no_digits (Some registry_50) clock_0
                           (with_rate (JStr "-2") request_50) empty_db)) "TARAL").
    + reflexivity.
    + reflexivity.
    + vm_compute. left.
    + vm_compute. reflexivity.
    + vm_compute. reflexivity.
Defined.

(** C6 as stated fails: the handler sends [BEGIN] before it looks at the
    body, so a request with a missing field is rejected with a transaction
    open on the connection. *)
Lemma rejection_after_begin :
  fst (post_claim no_digits (Some registry_50) clock_0
         (with_amount JUndefined request_50) empty_db) = MissingFields
  /\ sent (snd (post_claim no_digits (Some registry_50) clock_0
                  (with_amount JUndefined request_50) empty_db)) = [BEGIN]
  /\ transaction (snd (post_claim no_digits (Some registry_50) clock_0
                         (with_amount JUndefined request_50) empty_db))
     = Some empty_db.
Proof. vm_compute. auto. Qed.

(** C6, amended. When a request is rejected by one of the six checks, the
    handler has opened a transaction with [BEGIN], has sent no statement
    that reads or writes a claim record or a wallet account, and the store
    is as it was. *)
Theorem rejection_touches_no_row Number_toString W e b store :
  is_rejection (fst (post_claim Number_toString W e b store)) = true ->
  head (sent (snd (post_claim Number_toString W e b store))) = Some BEGIN
  /\ Forall (fun q => touches_rows q = false)
       (sent (snd (post_claim Number_toString W e b store)))
  /\ committed (snd (post_claim Number_toString W e b store)) = store.
Proof.
  destruct (validate W b) as [v|r|m] eqn:V.
  - destruct (filter (fun r => Claims.transaction_hash r
                               = prepareValue Number_toString (hash v))
                (claims store)) as [|r0 rest] eqn:E1.
    + destruct (filter (fun r => Claims.user_address r = claimUserAddress v
                                 ∧ Claims.token_type r = kind v) (claims store))
        as [|r0 rest] eqn:E2.
      * destruct (post_claim_success Number_toString W e b store v V E1 E2)
          as (data & s & -> & _). discriminate.
      * erewrite post_claim_already by eauto. discriminate.
    + erewrite post_claim_duplicate by eauto. discriminate.
  - erewrite post_claim_rejected by eauto. cbn. intros _.
    repeat split. repeat constructor.
  - erewrite post_claim_thrown by eauto. discriminate.
Qed.

Lemma rejection_touches_no_row_witness :
  head (sent (snd (post_claim no_digits (Some registry_50) clock_0
                     (with_amount (JStr "60") request_50) empty_db))) = Some BEGIN
  /\ Forall (fun q => touches_rows q = false)
       (sent (snd (post_claim no_digits (Some registry_50) clock_0
                     (with_amount (JStr "60") request_50) empty_db)))
  /\ committed (snd (post_claim no_digits (Some registry_50) clock_0
                      (with_amount (JStr "60") request_50) empty_db)) = empty_db.
Proof.
  apply (rejection_touches_no_row no_digits (Some registry_50) clock_0
           (with_amount (JStr "60") request_50) empty_db).
  vm_compute. reflexivity.
Defined.

(** C7. Every record of a reachable store has a rate above zero and a
    derived amount equal to its amount times its rate, and a successful
    call reports the derived amount of the record it inserted. In the
    scenario, the claim of 50 at rate 2 succeeds with the derived amount
    100, and the totals of the wallet read 50 TARAL, 0 RVLNG, 100 derived
    units and one claim. *)
Theorem derived_amount_is_amount_times_rate Number_toString :
  (forall store,
      reachable Number_toString store ->
      forall c,
        c ∈ claims store ->
        Claims.nova_amount c = Num.mul (Claims.amount c) (Claims.conversion_rate c)
        /\ Num.gt (Claims.conversion_rate c) Num.pzero = true)
  /\ (forall W e b store data,
        fst (post_claim Number_toString W e b store) = Success data ->
        exists c,
          claims (committed (snd (post_claim Number_toString W e b store)))
            = (claims store ++ [c])%list
          /\ Claims.nova_amount c
             = Num.mul (Claims.amount c) (Claims.conversion_rate c)
          /\ Data.amountClaimed data = Claims.amount c
          /\ Data.novaReceived data = Claims.nova_amount c)
  /\ (forall e,
        exists data,
          fst (post_claim Number_toString (Some registry_50) e request_50 empty_db)
            = Success data
          /\ Data.novaReceived data = Num.of_Z 100
          /\ Data.taralClaimed (Data.userTotals data) = Num.of_Z 50
          /\ Data.rvlngClaimed (Data.userTotals data) = Num.of_Z 0
          /\ Data.totalNova (Data.userTotals data) = Num.of_Z 100
          /\ Data.totalClaims (Data.userTotals data) = 1%N).
Proof.
  split; [|split].
  - intros store Hr c Hc.
    apply reachable_invariant in Hr as (_ & _ & H). exact (H c Hc).
  - intros W e b store data Hs.
    apply post_claim_Success_inv in Hs as (v & V & -> & Ha & Hn).
    exists (inserted Number_toString e v store). cbn. auto.
  - intros e. eexists. split; [vm_compute; reflexivity|]. cbn.
    repeat split; vm_compute; reflexivity.
Qed.

Lemma derived_amount_is_amount_times_rate_witness :
  Claims.nova_amount record_50
    = Num.mul (Claims.amount record_50) (Claims.conversion_rate record_50)
  /\ Num.gt (Claims.conversion_rate record_50) Num.pzero = true.
Proof.
  apply (proj1 (derived_amount_is_amount_times_rate no_digits) store_50).
  - exact (reachable_claim no_digits (Some registry_50) clock_0 request_50 empty_db
             (reachable_empty no_digits)).
  - vm_compute. left.
Defined.

(** C8. When the file cannot be read, [loadWalletAllocations] returns
    [undefined]; the next lookup then throws a TypeError instead of
    reporting the wallet as absent, so the claim of the scenario is
    answered with the internal error, not with the unknown-wallet
    rejection, which no request gets any more; the allocation report fails
    the same way. *)
Theorem failed_load_makes_lookup_throw Number_toString e store :
  loadWalletAllocations None = None
  /\ getUserAllocation (R := response) (loadWalletAllocations None)
       (JStr "0xabc") (JStr "TARAL")
     = Throw "TypeError: Cannot read properties of undefined"
  /\ fst (post_claim Number_toString (loadWalletAllocations None) e request_50 store)
     = InternalError "TypeError: Cannot read properties of undefined"
  /\ (forall b,
        fst (post_claim Number_toString (loadWalletAllocations None) e b store)
        <> UnknownWallet)
  /\ get_allocations (loadWalletAllocations None) "0xabc" store = AllocationsError.
Proof.
  repeat split. intros b H.
  change (loadWalletAllocations None) with (@None (gmap string allocation)) in H.
  destruct (post_claim_rejection Number_toString None e b store) as [V|V];
    rewrite H in V; [|discriminate].
  unfold validate, getUserAllocation, method_toUpperCase, method_toLowerCase,
    outcome_bind in V.
  repeat case_match; simplify_eq.
Qed.

(** C9. For a wallet that has an entry in the registry, the report gives
    for each token kind the entitled amount, the sum of the amounts of the
    wallet's claims of that kind, the remainder [max(0, allocated -
    claimed)] and whether the remainder is above zero. The remainder is the
    difference itself when that is above zero, and then more can be claimed;
    it is zero when the difference is zero or below, as when the claimed sum
    exceeds the entitlement, and then nothing can be claimed; it is never
    below zero. For the wallet of the scenario, before its claim the
    remainder of the 50 TARAL is 50 and can be claimed, and that of the 0
    RVLNG is 0; after the claim the remainder of the 50 TARAL is 0 and
    nothing more can be claimed. *)
Theorem allocation_status allocations param store a :
  allocations !! toLowerCase param = Some a ->
  (exists data,
      get_allocations (Some allocations) param store = Allocations data
      /\ let address := toLowerCase param in
         let check (entry : Report.entry) (allocated claimed : num) :=
           Report.allocated entry = Amount allocated
           /\ Report.claimed entry = claimed
           /\ Report.remaining entry = Num.max Num.pzero (Num.sub allocated claimed)
           /\ Report.canClaim entry = Num.gt (Report.remaining entry) Num.pzero
           /\ Num.lt (Report.remaining entry) Num.pzero = false
           /\ (Num.lt (Num.sub allocated claimed) Num.pzero = true ->
               Report.remaining entry = Num.pzero)
           /\ (Num.gt (Num.sub allocated claimed) Num.pzero = true ->
               Report.remaining entry = Num.sub allocated claimed
               /\ Report.canClaim entry = true)
           /\ (Num.le (Num.sub allocated claimed) Num.pzero = true ->
               Report.remaining entry = Num.pzero
               /\ Report.canClaim entry = false) in
         check (Report.taral data) (taral a) (claimed_sum "TARAL" address store)
         /\ check (Report.rvlng data) (rvlng a) (claimed_sum "RVLNG" address store))
  /\ (exists data,
        get_allocations (Some registry_50) "0xabc" store_50 = Allocations data
        /\ Report.allocated (Report.taral data) = Amount (Num.of_Z 50)
        /\ Report.claimed (Report.taral data) = Num.of_Z 50
        /\ Report.remaining (Report.taral data) = Num.pzero
        /\ Report.canClaim (Report.taral data) = false)
  /\ (exists data,
        get_allocations (Some registry_50) "0xabc" empty_db = Allocations data
        /\ Report.allocated (Report.taral data) = Amount (Num.of_Z 50)
        /\ Report.claimed (Report.taral data) = Num.pzero
        /\ Report.remaining (Report.taral data) = Num.of_Z 50
        /\ Report.canClaim (Report.taral data) = true
        /\ Report.allocated (Report.rvlng data) = Amount (Num.of_Z 0)
        /\ Report.remaining (Report.rvlng data) = Num.pzero
        /\ Report.canClaim (Report.rvlng data) = false).
Proof.
  intros Ha. split; [|split].
  - unfold get_allocations, get_property. rewrite Ha.
    eexists. split; [reflexivity|]. cbn.
    rewrite add_claimed_taral, add_claimed_rvlng. cbn [taral rvlng].
    rewrite !claimed_of_kind.
    repeat split; auto using max_zero_not_negative, max_zero_of_negative,
      max_zero_of_positive, max_zero_of_not_positive.
    all: try (rewrite max_zero_of_positive by assumption; assumption).
    all: rewrite max_zero_of_not_positive by assumption; reflexivity.
  - eexists. split; [vm_compute; reflexivity|]. cbn. repeat split.
  - eexists. split; [vm_compute; reflexivity|]. cbn. repeat split.
Qed.

Lemma allocation_status_witness :
  (exists data,
      get_allocations (Some registry_50) "0xABC" store_50 = Allocations data
      /\ let address := toLowerCase "0xABC" in
         let check (entry : Report.entry) (allocated claimed : num) :=
           Report.allocated entry = Amount allocated
           /\ Report.claimed entry = claimed
           /\ Report.remaining entry = Num.max Num.pzero (Num.sub allocated claimed)
           /\ Report.canClaim entry = Num.gt (Report.remaining entry) Num.pzero
           /\ Num.lt (Report.remaining entry) Num.pzero = false
           /\ (Num.lt (Num.sub allocated claimed) Num.pzero = true ->
               Report.remaining entry = Num.pzero)
           /\ (Num.gt (Num.sub allocated claimed) Num.pzero = true ->
               Report.remaining entry = Num.sub allocated claimed
               /\ Report.canClaim entry = true)
           /\ (Num.le (Num.sub allocated claimed) Num.pzero = true ->
               Report.remaining entry = Num.pzero
               /\ Report.canClaim entry = false) in
         check (Report.taral data) (Num.of_Z 50) (claimed_sum "TARAL" address store_50)
         /\ check (Report.rvlng data) (Num.of_Z 0) (claimed_sum "RVLNG" address store_50))
  /\ (exists data,
        get_allocations (Some registry_50) "0xabc" store_50 = Allocations data
        /\ Report.allocated (Report.taral data) = Amount (Num.of_Z 50)
        /\ Report.claimed (Report.taral data) = Num.of_Z 50
        /\ Report.remaining (Report.taral data) = Num.pzero
        /\ Report.canClaim (Report.taral data) = false)
  /\ (exists data,
        get_allocations (Some registry_50) "0xabc" empty_db = Allocations data
        /\ Report.allocated (Report.taral data) = Amount (Num.of_Z 50)
        /\ Report.claimed (Report.taral data) = Num.pzero
        /\ Report.remaining (Report.taral data) = Num.of_Z 50
        /\ Report.canClaim (Report.taral data) = true
        /\ Report.allocated (Report.rvlng data) = Amount (Num.of_Z 0)
        /\ Report.remaining (Report.rvlng data) = Num.pzero
        /\ Report.canClaim (Report.rvlng data) = false).
Proof.
  apply (allocation_status registry_50 "0xABC" store_50
           {| taral := Num.of_Z 50; rvlng := Num.of_Z 0 |}).
  vm_compute. reflexivity.
Defined.

(** C10. A request in which a required field is falsy, be it absent,
    [null], [false], the empty string, or a number that is zero or NaN, is
    answered with the missing-fields rejection; so an amount given as the
    number 0 is reported as missing, not as an invalid amount. *)
Theorem falsy_field_is_missing Number_toString W e b store v :
  v ∈ [Body.tokenType b; Body.amount b; Body.transactionHash b; Body.userAddress b] ->
  to_boolean v = false ->
  fst (post_claim Number_toString W e b store) = MissingFields.
Proof.
  intros Hv Hf.
  assert (Hm : missing_fields b = true).
  { unfold missing_fields.
    repeat (apply elem_of_cons in Hv as [->|Hv];
            [rewrite Hf;
             repeat match goal with
                    | |- context [to_boolean ?x] => destruct (to_boolean x)
                    end; reflexivity|]).
    inversion Hv. }
  rewrite (post_claim_rejected Number_toString W e b store MissingFields);
    [reflexivity|].
  unfold validate. rewrite Hm. reflexivity.
Qed.

Lemma falsy_field_is_missing_witness :
  fst (post_claim no_digits (Some registry_50) clock_0
         (with_amount (JNum (Num.of_Z 0)) request_50) empty_db) = MissingFields.
Proof.
  apply (falsy_field_is_missing no_digits (Some registry_50) clock_0
           (with_amount (JNum (Num.of_Z 0)) request_50) empty_db (JNum (Num.of_Z 0))).
  - right. left.
  - reflexivity.
Defined.

(** * Further properties of the router *)

(** ** Sums over the ledger *)

Lemma parseFloat_positive (x : num) :
  Num.gt x Num.pzero = true -> parseFloat (JNum x) = x.
Proof. destruct x as [[]|[]| |[] m e]; cbn; intros H; try discriminate; reflexivity. Qed.

Lemma claimed_sum_snoc kind address (d d' : db) c :
  claims d' = (claims d ++ [c])%list ->
  claimed_sum kind address d'
  = if decide (Claims.user_address c = address ∧ Claims.token_type c = kind)
    then Num.add (claimed_sum kind address d) (parseFloat (JNum (Claims.amount c)))
    else claimed_sum kind address d.
Proof.
  intros H. unfold claimed_sum. rewrite H, filter_app, foldl_app.
  rewrite filter_cons, filter_nil. case_decide; reflexivity.
Qed.

Lemma nova_sum_snoc address (d d' : db) c :
  claims d' = (claims d ++ [c])%list ->
  nova_sum address d'
  = if decide (Claims.user_address c = address)
    then Num.add (nova_sum address d) (Claims.nova_amount c)
    else nova_sum address d.
Proof.
  intros H. unfold nova_sum. rewrite H, filter_app, foldl_app.
  rewrite filter_cons, filter_nil. case_decide; reflexivity.
Qed.

Lemma claimed_sum_no_claim kind address (d : db) :
  filter (fun c => Claims.user_address c = address) (claims d) = [] ->
  claimed_sum kind address d = Num.pzero /\ nova_sum address d = Num.pzero.
Proof.
  intros H. split; [|unfold nova_sum; rewrite H; reflexivity].
  unfold claimed_sum.
  destruct (filter (fun c => Claims.user_address c = address
                             ∧ Claims.token_type c = kind) (claims d))
    as [|x xs] eqn:E; [reflexivity|].
  exfalso. assert (Hx : x ∈ x :: xs) by left. rewrite <- E in Hx.
  apply list_elem_of_filter in Hx as [[Hx _] Hin].
  exact (filter_nil_not_elem_of _ _ x H Hx Hin).
Qed.

(** ** The accounts after a claim *)

Lemma users_after_of_kind e v (us : list Users.row) :
  kind v ∈ ["TARAL"; "RVLNG"] ->
  users_after e v us
  = map (update_user (String.eqb (kind v) "TARAL") e (claimAmount v)
           (Num.mul (claimAmount v) (rate v)) (claimTimestamp_of e v)
           (claimUserAddress v))
      (ensured e v us).
Proof.
  intros Hk. unfold users_after, ensured, opened.
  destruct (String.eqb (kind v) "TARAL") eqn:K1; [reflexivity|].
  destruct (String.eqb (kind v) "RVLNG") eqn:K2; [reflexivity|].
  exfalso. apply String.eqb_neq in K1, K2.
  repeat (apply elem_of_cons in Hk as [Hk|Hk]; [congruence|]). inversion Hk.
Qed.

Lemma ensured_addresses e v (us : list Users.row) :
  NoDup (Users.address <$> us) -> NoDup (Users.address <$> ensured e v us).
Proof.
  intros H. unfold ensured.
  destruct (filter _ us) as [|u0 rest] eqn:E; [|exact H].
  rewrite fmap_app. apply NoDup_snoc_fresh; [exact H|].
  apply filter_nil_fresh, E.
Qed.

Lemma ensured_has_account e v (us : list Users.row) :
  exists u, u ∈ ensured e v us /\ Users.address u = claimUserAddress v.
Proof.
  unfold ensured. destruct (filter _ us) as [|u0 rest] eqn:E.
  - exists (opened e v). split; [|reflexivity]. apply elem_of_app. right. left.
  - exists u0. assert (H : u0 ∈ u0 :: rest) by left. rewrite <- E in H.
    apply list_elem_of_filter in H as [H1 H2]. auto.
Qed.

Lemma ensured_elem e v (us : list Users.row) u :
  u ∈ ensured e v us ->
  u ∈ us
  \/ (u = opened e v
      /\ filter (fun u => Users.address u = claimUserAddress v) us = []).
Proof.
  unfold ensured. destruct (filter _ us) as [|u0 rest] eqn:E; [|auto].
  intros H. apply elem_of_app in H as [H|H]; [auto|].
  apply list_elem_of_singleton in H. auto.
Qed.

Lemma ensured_incl e v (us : list Users.row) u : u ∈ us -> u ∈ ensured e v us.
Proof.
  unfold ensured. destruct (filter _ us); [|auto].
  intros H. apply elem_of_app. auto.
Qed.

Lemma map_update_addresses k e x y t a (us : list Users.row) :
  Users.address <$> map (update_user k e x y t a) us = Users.address <$> us.
Proof.
  induction us as [|u us IH]; [reflexivity|].
  cbn [map]. rewrite !fmap_cons, update_user_address. f_equal. exact IH.
Qed.

Section Kept.

Variable Number_toString : num -> string.

Lemma store_after_well_kept W e b v d :
  validate W b = Next v ->
  well_kept d ->
  well_kept (store_after Number_toString e v d).
Proof.
  intros V (Hc & Hu & Ha).
  apply validate_Next in V
    as (_ & (t & a & _ & _ & _ & Hlow) & Hk & _ & Hpos & _).
  pose proof (parseFloat_positive _ Hpos) as Hparse.
  set (c := inserted Number_toString e v d).
  assert (Hclaims : claims (store_after Number_toString e v d)
                    = (claims d ++ [c])%list) by reflexivity.
  unfold well_kept. cbn [claims users store_after]. fold c.
  rewrite (users_after_of_kind e v (users d) Hk).
  set (k := String.eqb (kind v) "TARAL").
  set (f := update_user k e (claimAmount v) (Num.mul (claimAmount v) (rate v))
              (claimTimestamp_of e v) (claimUserAddress v)).
  split; [|split].
  - intros c0 Hc0. apply elem_of_app in Hc0 as [Hc0|Hc0].
    + destruct (Hc c0 Hc0) as (Hn & u & Hu1 & Hu2). split; [exact Hn|].
      exists (f u). split.
      * apply list_elem_of_In, in_map, list_elem_of_In, ensured_incl, Hu1.
      * unfold f. rewrite update_user_address. exact Hu2.
    + apply list_elem_of_singleton in Hc0 as ->. split.
      * unfold normalized, c. cbn.
        rewrite Hlow, toLowerCase_idempotent. auto.
      * destruct (ensured_has_account e v (users d)) as (u & Hu1 & Hu2).
        exists (f u). split.
        -- apply list_elem_of_In, in_map, list_elem_of_In, Hu1.
        -- unfold f. rewrite update_user_address. exact Hu2.
  - unfold f. rewrite map_update_addresses. apply ensured_addresses, Hu.
  - intros u' Hu'. apply list_elem_of_In, in_map_iff in Hu' as (u & <- & Hin).
    apply list_elem_of_In in Hin.
    assert (Hold : account_agrees d u
                   /\ (Users.address u <> claimUserAddress v ->
                       exists c0, c0 ∈ claims d
                                  /\ Claims.user_address c0 = Users.address u)).
    { apply ensured_elem in Hin as [Hin|[-> Hnone]].
      - destruct (Ha u Hin) as [H1 H2]. auto.
      - split; [|intros Hne; contradiction Hne; reflexivity].
        assert (Hno : filter (fun c0 => Claims.user_address c0 = claimUserAddress v)
                        (claims d) = []).
        { destruct (filter _ (claims d)) as [|x xs] eqn:E; [reflexivity|].
          exfalso. assert (Hx : x ∈ x :: xs) by left. rewrite <- E in Hx.
          apply list_elem_of_filter in Hx as [Hx1 Hx2].
          destruct (Hc x Hx2) as (_ & u0 & Hu1 & Hu2).
          refine (filter_nil_not_elem_of _ _ u0 Hnone _ Hu1). congruence. }
        unfold account_agrees, opened. cbn.
        destruct (claimed_sum_no_claim "TARAL" _ d Hno) as [-> ->].
        destruct (claimed_sum_no_claim "RVLNG" _ d Hno) as [-> _]. auto. }
    destruct Hold as ((A1 & A2 & A3) & Hex).
    unfold account_agrees, f, update_user.
    rewrite (claimed_sum_snoc "TARAL" _ d _ c Hclaims),
      (claimed_sum_snoc "RVLNG" _ d _ c Hclaims), (nova_sum_snoc _ d _ c Hclaims).
    change (Claims.user_address c) with (claimUserAddress v).
    change (Claims.token_type c) with (kind v).
    change (Claims.amount c) with (claimAmount v).
    change (Claims.nova_amount c) with (Num.mul (claimAmount v) (rate v)).
    rewrite Hparse.
    case_bool_decide as Hadr; cbn [Users.address Users.taral_claimed
      Users.rvlng_claimed Users.total_nova].
    + assert (Hkind : kind v = "TARAL" /\ k = true \/ kind v = "RVLNG" /\ k = false).
      { unfold k.
        repeat (apply elem_of_cons in Hk as [Hk|Hk];
                [rewrite Hk; cbn; auto|]). inversion Hk. }
      rewrite Hadr.
      split; [|exists c; split; [apply elem_of_app; right; left|reflexivity]].
      destruct Hkind as [[Hkv ->]|[Hkv ->]]; rewrite Hkv.
      * rewrite decide_True by auto. rewrite decide_False by (intros [_ H]; discriminate).
        rewrite decide_True by reflexivity. rewrite A1, A2, A3, Hadr. auto.
      * rewrite decide_False by (intros [_ H]; discriminate).
        rewrite decide_True by auto.
        rewrite decide_True by reflexivity. rewrite A1, A2, A3, Hadr. auto.
    + rewrite !decide_False by (try intros [H _]; congruence).
      split; [auto|].
      destruct (Hex Hadr) as (c0 & H1 & H2). exists c0.
      split; [apply elem_of_app; auto|exact H2].
Qed.

End Kept.

Section Reached.

Variable Number_toString : num -> string.

Local Abbreviation post_claim := (post_claim Number_toString).
Local Abbreviation prepareValue := (prepareValue Number_toString).
Local Abbreviation reachable := (reachable Number_toString).

Lemma reachable_well_kept d : reachable d -> well_kept d.
Proof.
  induction 1 as [|W e b d Hd IH].
  - split; [|split].
    + intros c Hc. inversion Hc.
    + apply NoDup_nil_2.
    + intros u Hu. inversion Hu.
  - destruct (post_claim_store Number_toString W e b d)
      as [->|(v & V & _ & _ & ->)]; [exact IH|].
    eapply store_after_well_kept; eauto.
Qed.

(** A success means that the checks let the request through and that both
    lookups came back empty. *)
Lemma post_claim_Success_fresh W e b store data :
  fst (post_claim W e b store) = Success data ->
  exists v,
    validate W b = Next v
    /\ filter (fun r => Claims.transaction_hash r = prepareValue (hash v))
         (claims store) = []
    /\ filter (fun r => Claims.user_address r = claimUserAddress v
                        ∧ Claims.token_type r = kind v) (claims store) = []
    /\ committed (snd (post_claim W e b store)) = store_after Number_toString e v store
    /\ transaction (snd (post_claim W e b store)) = None.
Proof.
  destruct (validate W b) as [v|r|m] eqn:V.
  - destruct (filter (fun r => Claims.transaction_hash r = prepareValue (hash v))
                (claims store)) as [|r0 rest] eqn:E1.
    + destruct (filter (fun r => Claims.user_address r = claimUserAddress v
                                 ∧ Claims.token_type r = kind v) (claims store))
        as [|r0 rest] eqn:E2.
      * destruct (post_claim_success Number_toString W e b store v V E1 E2)
          as (data' & s & -> & Hs & Ht & _).
        cbn. intros _. exists v. auto.
      * erewrite post_claim_already by eauto. discriminate.
    + erewrite post_claim_duplicate by eauto. discriminate.
  - erewrite post_claim_rejected by eauto. cbn. intros ->.
    apply validate_Return in V. discriminate.
  - erewrite post_claim_thrown by eauto. discriminate.
Qed.

(** What a call does to the store and to the transaction, by response. *)
Lemma post_claim_effect W e b store :
  match fst (post_claim W e b store) with
  | Success _ =>
      exists v,
        validate W b = Next v
        /\ committed (snd (post_claim W e b store))
           = store_after Number_toString e v store
        /\ transaction (snd (post_claim W e b store)) = None
  | r =>
      committed (snd (post_claim W e b store)) = store
      /\ (is_rejection r = false -> transaction (snd (post_claim W e b store)) = None)
  end.
Proof.
  destruct (validate W b) as [v|r|m] eqn:V.
  - destruct (filter (fun r => Claims.transaction_hash r = prepareValue (hash v))
                (claims store)) as [|r0 rest] eqn:E1.
    + destruct (filter (fun r => Claims.user_address r = claimUserAddress v
                                 ∧ Claims.token_type r = kind v) (claims store))
        as [|r0 rest] eqn:E2.
      * destruct (post_claim_success Number_toString W e b store v V E1 E2)
          as (data' & s & -> & Hs & Ht & _).
        cbn. exists v. auto.
      * erewrite post_claim_already by eauto. cbn. auto.
    + erewrite post_claim_duplicate by eauto. cbn. auto.
  - erewrite post_claim_rejected by eauto. cbn.
    pose proof (validate_Return _ _ _ V) as Hr.
    destruct r; try discriminate Hr; split; auto; discriminate.
  - erewrite post_claim_thrown by eauto. cbn. auto.
Qed.

End Reached.


(** X5. A call changes the store only when it answers with a success, and
    then by one record added at the end, under the next identifier, with the
    transaction closed; on every other response the store is as it was. No
    call changes or removes a record that was there. *)
Theorem store_changes_only_on_success Number_toString W e b store :
  match fst (post_claim Number_toString W e b store) with
  | Success data =>
      exists c,
        claims (committed (snd (post_claim Number_toString W e b store)))
          = (claims store ++ [c])%list
        /\ Claims.id c = claims_id_seq store
        /\ Claims.nova_amount c = Data.novaReceived data
        /\ transaction (snd (post_claim Number_toString W e b store)) = None
  | _ => committed (snd (post_claim Number_toString W e b store)) = store
  end
  /\ claims store
       `prefix_of` claims (committed (snd (post_claim Number_toString W e b store))).
Proof.
  pose proof (post_claim_effect Number_toString W e b store) as H.
  destruct (fst (post_claim Number_toString W e b store)) as [| | | | | | | |data|] eqn:R;
    try (destruct H as [-> _]; split; reflexivity).
  destruct H as (v & V & Hs & Ht).
  destruct (post_claim_Success_inv Number_toString W e b store data R)
    as (v' & V' & _ & _ & Hn).
  assert (v' = v) by congruence. subst v'.
  rewrite Hs. split.
  - exists (inserted Number_toString e v store). cbn. auto.
  - cbn. apply prefix_app_r. reflexivity.
Qed.

(** X10. Sending a request again after it succeeded is answered with the
    duplicate-transaction conflict, which names the record the first call
    inserted, and leaves the store as the first call left it. *)
Theorem retry_is_duplicate Number_toString W e e' b store data :
  fst (post_claim Number_toString W e b store) = Success data ->
  fst (post_claim Number_toString W e' b
         (committed (snd (post_claim Number_toString W e b store))))
    = DuplicateTransaction (claims_id_seq store) (CURRENT_TIMESTAMP e)
  /\ committed (snd (post_claim Number_toString W e' b
                       (committed (snd (post_claim Number_toString W e b store)))))
     = committed (snd (post_claim Number_toString W e b store)).
Proof.
  intros Hs.
  apply post_claim_Success_fresh in Hs as (v & V & E1 & _ & -> & _).
  assert (E : filter (fun r => Claims.transaction_hash r
                               = prepareValue Number_toString (hash v))
                (claims (store_after Number_toString e v store))
              = [inserted Number_toString e v store]).
  { cbn [claims store_after]. rewrite filter_app, E1.
    rewrite filter_cons_True by reflexivity. reflexivity. }
  rewrite (post_claim_duplicate Number_toString W e' b _ v _ [] V E).
  split; reflexivity.
Qed.

Lemma retry_is_duplicate_witness :
  fst (post_claim no_digits (Some registry_50) clock_0 request_50
         (committed (snd (post_claim no_digits (Some registry_50) clock_0 request_50
                            empty_db))))
    = DuplicateTransaction (claims_id_seq empty_db) (CURRENT_TIMESTAMP clock_0)
  /\ committed (snd (post_claim no_digits (Some registry_50) clock_0 request_50
                       (committed (snd (post_claim no_digits (Some registry_50)
                                          clock_0 request_50 empty_db)))))
     = committed (snd (post_claim no_digits (Some registry_50) clock_0 request_50
                         empty_db)).
Proof.
  eapply (retry_is_duplicate no_digits (Some registry_50) clock_0 clock_0 request_50
            empty_db).
  vm_compute. reflexivity.
Defined.



(** X7. Every record of a reachable store is as the handler normalizes
    it: the wallet address is in lower case, the token kind is TARAL or
    RVLNG, the amount is above zero and the status is [completed]. *)
Theorem records_are_normalized Number_toString store c :
  reachable Number_toString store ->
  c ∈ claims store ->
  toLowerCase (Claims.user_address c) = Claims.user_address c
  /\ Claims.token_type c ∈ ["TARAL"; "RVLNG"]
  /\ Num.gt (Claims.amount c) Num.pzero = true
  /\ Claims.status c = "completed".
Proof.
  intros Hr Hc. apply reachable_well_kept in Hr as (H & _).
  destruct (H c Hc) as [Hn _]. exact Hn.
Qed.

Lemma records_are_normalized_witness :
  toLowerCase (Claims.user_address record_50) = Claims.user_address record_50
  /\ Claims.token_type record_50 ∈ ["TARAL"; "RVLNG"]
  /\ Num.gt (Claims.amount record_50) Num.pzero = true
  /\ Claims.status record_50 = "completed".
Proof.
  apply (records_are_normalized no_digits store_50).
  - exact (reachable_claim no_digits (Some registry_50) clock_0 request_50 empty_db
             (reachable_empty no_digits)).
  - vm_compute. left.
Defined.





(** ** [GET /wallet/verify/:hash] *)






(** ** [loadWalletAllocations] and [GET /wallet/reload-allocations] *)

(** The registry after one more record of the file. *)
Lemma loadWalletAllocations_snoc (records : list csv_record) (record : csv_record) :
  loadWalletAllocations (Some (records ++ [record])%list)
  = match loadWalletAllocations (Some records), wallet_address record with
    | Some allocations, JStr a =>
        Some (<[ toLowerCase a :=
                   {| taral := parseFloat (taral_amount record);
                      rvlng := parseFloat (rvlng_amount record) |} ]> allocations)
    | _, _ => None
    end.
Proof.
  unfold loadWalletAllocations. cbn. rewrite foldl_app. cbn.
  destruct (foldl _ (Some ∅) records); cbn; [|reflexivity].
  destruct (wallet_address record); reflexivity.
Qed.

Lemma loadWalletAllocations_entries records allocations key entry :
  loadWalletAllocations (Some records) = Some allocations ->
  allocations !! key = Some entry ->
  toLowerCase key = key
  /\ exists record a,
       record ∈ records /\ wallet_address record = JStr a /\ toLowerCase a = key
       /\ entry = {| taral := parseFloat (taral_amount record);
                     rvlng := parseFloat (rvlng_amount record) |}.
Proof.
  revert allocations. induction records as [|record records IH] using rev_ind;
    intros allocations Hl Hk.
  - cbn in Hl. injection Hl as <-. rewrite lookup_empty in Hk. discriminate.
  - rewrite loadWalletAllocations_snoc in Hl.
    destruct (loadWalletAllocations (Some records)) as [before|]; [|discriminate].
    assert (Hold : before !! key = Some entry ->
              toLowerCase key = key
              /\ exists r a, r ∈ (records ++ [record])%list /\ wallet_address r = JStr a
                   /\ toLowerCase a = key
                   /\ entry = {| taral := parseFloat (taral_amount r);
                                 rvlng := parseFloat (rvlng_amount r) |}).
    { intros H. destruct (IH before eq_refl H) as (H1 & r & a & Hr & H3).
      split; [exact H1|]. exists r, a.
      split; [apply elem_of_app; left; exact Hr|exact H3]. }
    destruct (wallet_address record) as [| | | |a] eqn:Ea; try discriminate.
    injection Hl as <-.
    destruct (decide (toLowerCase a = key)) as [<-|Hne].
    + rewrite lookup_insert_eq in Hk. injection Hk as <-.
      split; [apply toLowerCase_idempotent|].
      exists record, a. split; [apply elem_of_app; right; left|auto].
    + rewrite lookup_insert_ne in Hk by exact Hne. auto.
Qed.

Lemma loadWalletAllocations_last before record after a allocations :
  loadWalletAllocations (Some (before ++ record :: after)%list) = Some allocations ->
  wallet_address record = JStr a ->
  (forall later a', later ∈ after -> wallet_address later = JStr a' ->
                    toLowerCase a' <> toLowerCase a) ->
  allocations !! toLowerCase a
  = Some {| taral := parseFloat (taral_amount record);
            rvlng := parseFloat (rvlng_amount record) |}.
Proof.
  revert allocations. induction after as [|later after IH] using rev_ind;
    intros allocations Hl Ha Hlater.
  - rewrite loadWalletAllocations_snoc, Ha in Hl.
    destruct (loadWalletAllocations (Some before)); [|discriminate].
    injection Hl as <-. apply lookup_insert_eq.
  - replace (before ++ record :: after ++ [later])%list
      with ((before ++ record :: after) ++ [later])%list in Hl
      by (rewrite <- app_assoc; reflexivity).
    rewrite loadWalletAllocations_snoc in Hl.
    destruct (loadWalletAllocations (Some (before ++ record :: after)%list))
      as [sofar|]; [|discriminate].
    assert (Hs : sofar !! toLowerCase a
                 = Some {| taral := parseFloat (taral_amount record);
                           rvlng := parseFloat (rvlng_amount record) |}).
    { apply IH; auto. intros l a' Hin. apply Hlater. apply elem_of_app. left. exact Hin. }
    destruct (wallet_address later) as [| | | |a'] eqn:Ea; try discriminate.
    injection Hl as <-. rewrite lookup_insert_ne; [exact Hs|].
    apply (Hlater later a'); [apply elem_of_app; right; left|exact Ea].
Qed.

Lemma loadWalletAllocations_fails records :
  loadWalletAllocations (Some records) = None
  <-> exists record, record ∈ records /\ forall a, wallet_address record <> JStr a.
Proof.
  induction records as [|record records IH] using rev_ind.
  - split; [discriminate|]. intros (r & Hr & _). inversion Hr.
  - rewrite loadWalletAllocations_snoc. split.
    + destruct (loadWalletAllocations (Some records)) as [sofar|].
      * destruct (wallet_address record) as [| | | |a] eqn:Ea; try discriminate.
        all: intros _; exists record; split; [apply elem_of_app; right; left|];
          rewrite Ea; discriminate.
      * intros _. destruct IH as [IH _]. destruct (IH eq_refl) as (r & Hr & Hn).
        exists r. split; [apply elem_of_app; left; exact Hr|exact Hn].
    + intros (r & Hr & Hn). apply elem_of_app in Hr as [Hr|Hr].
      * destruct IH as [_ IH]. rewrite IH by eauto. reflexivity.
      * apply list_elem_of_singleton in Hr as ->.
        destruct (loadWalletAllocations (Some records)); [|reflexivity].
        destruct (wallet_address record) as [| | | |a] eqn:Ea; try reflexivity.
        exfalso. exact (Hn a eq_refl).
Qed.

Lemma loadWalletAllocations_size records allocations :
  loadWalletAllocations (Some records) = Some allocations ->
  size allocations <= length records.
Proof.
  revert allocations. induction records as [|record records IH] using rev_ind;
    intros allocations Hl.
  - cbn in Hl. injection Hl as <-. rewrite map_size_empty. cbn. lia.
  - rewrite loadWalletAllocations_snoc in Hl. rewrite length_app. cbn.
    destruct (loadWalletAllocations (Some records)) as [sofar|]; [|discriminate].
    specialize (IH sofar eq_refl).
    destruct (wallet_address record) as [| | | |a]; try discriminate.
    injection Hl as <-. rewrite map_size_insert.
    destruct (sofar !! toLowerCase a); unfold id; lia.
Qed.

Lemma own_properties_size (allocations : gmap string allocation) :
  size (own_properties allocations) <= size allocations.
Proof.
  unfold own_properties.
  destruct (allocations !! "__proto__") as [p|] eqn:E.
  - pose proof (map_size_delete "__proto__" allocations) as H.
    rewrite E in H. rewrite H. lia.
  - rewrite delete_id by exact E. lia.
Qed.

(** X12. The registry [loadWalletAllocations] builds from the records of
    the file. A read of a key finds an entry only if the key is the
    lower-case wallet address of some record, and the entry holds the two
    parsed amounts of that record. Of the records with the same address, up
    to case, the last one decides: a read of the lower-case address finds
    its two parsed amounts, also when the address is [__proto__], which the
    assignment turns into the prototype of the registry. And the reload
    endpoint reports at most as many wallets as the file has records, not
    counting the prototype. *)
Theorem registry_of_records records allocations :
  loadWalletAllocations (Some records) = Some allocations ->
  (forall key entry,
     get_property allocations key = Own entry ->
     toLowerCase key = key
     /\ exists record a,
          record ∈ records /\ wallet_address record = JStr a /\ toLowerCase a = key
          /\ entry = {| taral := parseFloat (taral_amount record);
                        rvlng := parseFloat (rvlng_amount record) |})
  /\ (forall before record after a,
        records = (before ++ record :: after)%list ->
        wallet_address record = JStr a ->
        (forall later a', later ∈ after -> wallet_address later = JStr a' ->
                          toLowerCase a' <> toLowerCase a) ->
        get_property allocations (toLowerCase a)
        = Own {| taral := parseFloat (taral_amount record);
                 rvlng := parseFloat (rvlng_amount record) |})
  /\ (exists totalWallets,
        fst (get_reload_allocations (Some records))
        = Reloaded totalWallets (own_properties allocations)
        /\ totalWallets <= length records
        /\ own_properties allocations !! "__proto__" = None).
Proof.
  intros Hl. split; [|split].
  - intros key entry Hk.
    assert (Hown : allocations !! key = Some entry).
    { unfold get_property in Hk.
      destruct (allocations !! key); [congruence|].
      repeat case_match; discriminate. }
    exact (loadWalletAllocations_entries _ _ _ _ Hl Hown).
  - intros before record after a -> Ha Hlater. unfold get_property.
    rewrite (loadWalletAllocations_last _ _ _ _ _ Hl Ha Hlater). reflexivity.
  - exists (size (own_properties allocations)).
    unfold get_reload_allocations. rewrite Hl. split; [reflexivity|]. split.
    + pose proof (own_properties_size allocations).
      pose proof (loadWalletAllocations_size _ _ Hl). lia.
    + apply lookup_delete_eq.
Qed.

Lemma registry_of_records_witness :
  (forall key entry,
     get_property registry_prototype key = Own entry ->
     toLowerCase key = key
     /\ exists record a,
          record ∈ file_prototype /\ wallet_address record = JStr a
          /\ toLowerCase a = key
          /\ entry = {| taral := parseFloat (taral_amount record);
                        rvlng := parseFloat (rvlng_amount record) |})
  /\ (forall before record after a,
        file_prototype = (before ++ record :: after)%list ->
        wallet_address record = JStr a ->
        (forall later a', later ∈ after -> wallet_address later = JStr a' ->
                          toLowerCase a' <> toLowerCase a) ->
        get_property registry_prototype (toLowerCase a)
        = Own {| taral := parseFloat (taral_amount record);
                 rvlng := parseFloat (rvlng_amount record) |})
  /\ (exists totalWallets,
        fst (get_reload_allocations (Some file_prototype))
        = Reloaded totalWallets (own_properties registry_prototype)
        /\ totalWallets <= length file_prototype
        /\ own_properties registry_prototype !! "__proto__" = None).
Proof.
  apply (registry_of_records file_prototype registry_prototype). reflexivity.
Defined.

(** X13. [loadWalletAllocations] returns a registry unless the file could
    not be read or parsed, or one of its records has no [wallet_address]
    string; in these cases, and only in these, it returns [undefined]. *)
Theorem load_fails_only_on_unreadable_or_unaddressed file :
  loadWalletAllocations file = None
  <-> file = None
      \/ exists records record,
           file = Some records /\ record ∈ records
           /\ forall a, wallet_address record <> JStr a.
Proof.
  destruct file as [records|].
  - rewrite loadWalletAllocations_fails. split.
    + intros (r & Hr & Hn). right. exists records, r. auto.
    + intros [H|(records' & r & [= <-] & Hr & Hn)]; [discriminate|]. eauto.
  - split; [auto|reflexivity].
Qed.

(** X15. After a reload that failed the endpoint has answered 500 and the
    registry is [undefined]: from then on no claim succeeds, no claim
    changes the store, and the allocation report answers 500 for every
    address. *)
Theorem failed_reload_refuses_every_claim file Number_toString e b store :
  loadWalletAllocations file = None ->
  fst (get_reload_allocations file) = ReloadFailed
  /\ (forall data,
        fst (post_claim Number_toString (snd (get_reload_allocations file)) e b store)
        <> Success data)
  /\ committed (snd (post_claim Number_toString (snd (get_reload_allocations file))
                       e b store)) = store
  /\ forall param,
       get_allocations (snd (get_reload_allocations file)) param store
       = AllocationsError.
Proof.
  intros Hl. unfold get_reload_allocations. rewrite Hl. cbn [fst snd].
  assert (Hno : forall data, fst (post_claim Number_toString None e b store)
                             <> Success data).
  { intros data H. apply post_claim_Success_inv in H as (v & V & _).
    unfold validate, getUserAllocation, method_toUpperCase, method_toLowerCase,
      outcome_bind in V.
    repeat case_match; simplify_eq. }
  split; [reflexivity|]. split; [exact Hno|]. split; [|reflexivity].
  pose proof (post_claim_effect Number_toString None e b store) as He.
  destruct (fst (post_claim Number_toString None e b store)) eqn:E;
    try (destruct He as [He _]; exact He).
  exfalso. exact (Hno _ eq_refl).
Qed.

Lemma failed_reload_refuses_every_claim_witness :
  fst (get_reload_allocations (Some file_broken)) = ReloadFailed
  /\ (forall data,
        fst (post_claim no_digits (snd (get_reload_allocations (Some file_broken)))
               clock_0 request_50 empty_db)
        <> Success data)
  /\ committed (snd (post_claim no_digits (snd (get_reload_allocations (Some file_broken)))
                       clock_0 request_50 empty_db)) = empty_db
  /\ forall param,
       get_allocations (snd (get_reload_allocations (Some file_broken))) param empty_db
       = AllocationsError.
Proof.
  apply (failed_reload_refuses_every_claim (Some file_broken) no_digits clock_0
           request_50 empty_db).
  reflexivity.
Defined.

(** ** The checks of [POST /wallet/claim], read both ways *)

Lemma upper_ascii_idempotent c : upper_ascii (upper_ascii c) = upper_ascii c.
Proof. destruct c as [[] [] [] [] [] [] [] []]; reflexivity. Qed.

Lemma toUpperCase_idempotent s : toUpperCase (toUpperCase s) = toUpperCase s.
Proof.
  unfold toUpperCase. induction s as [|c s IH]; [reflexivity|].
  cbn [map_string]. rewrite upper_ascii_idempotent, IH. reflexivity.
Qed.

Lemma to_boolean_map_string f s : to_boolean (JStr (map_string f s)) = to_boolean (JStr s).
Proof. destruct s; reflexivity. Qed.

Lemma positive_iff (x : num) :
  Num.gt x Num.pzero = true <-> Num.isNaN x || Num.le x Num.pzero = false.
Proof. destruct x as [[]|[]| |[] m e]; cbn; split; congruence. Qed.

(** The requests the checks of lines 104-160 let through. *)
Lemma validate_accepts W b v :
  validate W b = Next v
  <-> exists t a expected,
        missing_fields b = false
        /\ Body.tokenType b = JStr t
        /\ Body.userAddress b = JStr a
        /\ toUpperCase t ∈ ["TARAL"; "RVLNG"]
        /\ Num.gt (parseFloat (Body.amount b)) Num.pzero = true
        /\ Num.gt (or_else (parseFloat (Body.conversionRate b)) one) Num.pzero = true
        /\ getUserAllocation (R := response) W (JStr (toLowerCase a)) (JStr t)
           = Next expected
        /\ expected <> Null
        /\ Num.gt (Num.abs (Num.sub (parseFloat (Body.amount b)) (to_number expected)))
             tolerance = false
        /\ v = {| kind := toUpperCase t;
                  claimAmount := parseFloat (Body.amount b);
                  rate := or_else (parseFloat (Body.conversionRate b)) one;
                  claimUserAddress := toLowerCase a;
                  hash := Body.transactionHash b;
                  stamp := Body.timestamp b |}.
Proof.
  split.
  - unfold validate. destruct (missing_fields b); [discriminate|].
    destruct (Body.tokenType b) as [| | | |t]; try discriminate.
    cbn [method_toUpperCase outcome_bind].
    case_bool_decide as Hk; [|discriminate]. cbn [negb].
    destruct (Num.isNaN (parseFloat (Body.amount b))
              || Num.le (parseFloat (Body.amount b)) Num.pzero) eqn:A; [discriminate|].
    destruct (Num.isNaN (or_else (parseFloat (Body.conversionRate b)) one)
              || Num.le (or_else (parseFloat (Body.conversionRate b)) one) Num.pzero)
      eqn:R; [discriminate|].
    destruct (Body.userAddress b) as [| | | |a]; try discriminate.
    cbn [method_toLowerCase outcome_bind].
    destruct (getUserAllocation W (JStr (toLowerCase a)) (JStr t))
      as [expected|r|m] eqn:G; try discriminate.
    cbn [outcome_bind].
    apply positive_iff in A, R.
    destruct expected as [|x|]; [discriminate| |].
    all: match goal with
         | |- context [if ?c then _ else _] => destruct c eqn:T; [discriminate|]
         end.
    all: intros [= <-]; eexists t, a, _; repeat split; eauto; discriminate.
  - intros (t & a & expected & Hm & Ht & Ha & Hk & A & R & G & Hn & T & ->).
    apply positive_iff in A, R.
    unfold validate. rewrite Hm, Ht, Ha.
    cbn [method_toUpperCase method_toLowerCase outcome_bind].
    rewrite (bool_decide_eq_true_2 _ Hk). cbn [negb]. rewrite A, R, G.
    cbn [outcome_bind]. rewrite T.
    destruct expected; [contradiction|reflexivity|reflexivity].
Qed.

(** X1. A claim whose strings are plain is answered with a success exactly
    when: the four required fields are truthy; the token kind and the wallet
    address are strings; the kind is TARAL or RVLNG up to case; the amount
    and the rate used are above zero; the lookup of the entitlement returns
    something other than [null]; the test [Math.abs(claimAmount -
    userAllocation) > 0.01] is false, as it is when the two differ by no
    more than that and also when the entitlement is [undefined] or NaN; and
    no record carries the transaction reference or the pair of the
    lower-case address and the upper-case kind. *)
Theorem accepted_exactly_when Number_toString W e b store :
  plain_request b = true ->
  (exists data, fst (post_claim Number_toString W e b store) = Success data)
  <-> exists t a expected,
        missing_fields b = false
        /\ Body.tokenType b = JStr t
        /\ Body.userAddress b = JStr a
        /\ toUpperCase t ∈ ["TARAL"; "RVLNG"]
        /\ Num.gt (parseFloat (Body.amount b)) Num.pzero = true
        /\ Num.gt (or_else (parseFloat (Body.conversionRate b)) one) Num.pzero = true
        /\ getUserAllocation (R := response) W (JStr (toLowerCase a)) (JStr t)
           = Next expected
        /\ expected <> Null
        /\ Num.gt (Num.abs (Num.sub (parseFloat (Body.amount b)) (to_number expected)))
             tolerance = false
        /\ (prepareValue Number_toString (Body.transactionHash b)
              ∉ Claims.transaction_hash <$> claims store)
        /\ ((toLowerCase a, toUpperCase t) ∉ pair_of <$> claims store).
Proof.
  intros _. split.
  - intros (data & Hs).
    apply post_claim_Success_fresh in Hs as (v & V & F1 & F2 & _).
    apply validate_accepts in V
      as (t & a & expected & Hm & Ht & Ha & Hk & A & R & G & Hn & T & ->).
    cbn [hash claimUserAddress kind] in F1, F2.
    exists t, a, expected. repeat split; try assumption.
    + apply filter_nil_fresh, F1.
    + apply fresh_pair_iff, F2.
  - intros (t & a & expected & Hm & Ht & Ha & Hk & A & R & G & Hn & T & F1 & F2).
    assert (V : validate W b
                = Next {| kind := toUpperCase t;
                          claimAmount := parseFloat (Body.amount b);
                          rate := or_else (parseFloat (Body.conversionRate b)) one;
                          claimUserAddress := toLowerCase a;
                          hash := Body.transactionHash b;
                          stamp := Body.timestamp b |}).
    { apply validate_accepts. exists t, a, expected. repeat split; assumption. }
    apply fresh_filter_nil in F1. apply fresh_pair_iff in F2.
    destruct (post_claim_success Number_toString W e b store _ V F1 F2)
      as (data & s & -> & _).
    exists data. reflexivity.
Qed.

(** X2. The checks run in the order of the source and the first that
    fails decides the response, whatever the later ones would say: the token
    kind before the amount, the amount before the rate, the rate before the
    lookup of the wallet, and an unknown wallet before a wrong amount. *)
Theorem first_failing_check_decides Number_toString W e b store t :
  missing_fields b = false ->
  Body.tokenType b = JStr t ->
  let claimAmount := parseFloat (Body.amount b) in
  let rate := or_else (parseFloat (Body.conversionRate b)) one in
  let invalid_kind := bool_decide (toUpperCase t ∉ ["TARAL"; "RVLNG"]) in
  let invalid_amount := Num.isNaN claimAmount || Num.le claimAmount Num.pzero in
  let invalid_rate := Num.isNaN rate || Num.le rate Num.pzero in
  let answer := fst (post_claim Number_toString W e b store) in
  (invalid_kind = true -> answer = InvalidTokenKind)
  /\ (invalid_kind = false -> invalid_amount = true -> answer = InvalidAmount)
  /\ (invalid_kind = false -> invalid_amount = false -> invalid_rate = true ->
      answer = InvalidRate)
  /\ (forall a allocations,
        invalid_kind = false -> invalid_amount = false -> invalid_rate = false ->
        Body.userAddress b = JStr a ->
        W = Some allocations ->
        get_property allocations (toLowerCase a) = Missing ->
        answer = UnknownWallet)
  /\ (forall a allocations expected,
        invalid_kind = false -> invalid_amount = false -> invalid_rate = false ->
        Body.userAddress b = JStr a ->
        W = Some allocations ->
        getUserAllocation (R := response) W (JStr (toLowerCase a)) (JStr t)
          = Next expected ->
        expected <> Null ->
        Num.gt (Num.abs (Num.sub claimAmount (to_number expected))) tolerance = true ->
        answer = AllocationMismatch expected claimAmount).
Proof.
  intros Hm Ht. cbn zeta.
  destruct (checks_in_order W b) as [_ H].
  destruct (H t Hm Ht) as (H1 & H2 & H3 & H4 & H5). clear H.
  repeat split.
  - intros K. erewrite post_claim_rejected by eauto. reflexivity.
  - intros K A. erewrite post_claim_rejected by eauto. reflexivity.
  - intros K A R. erewrite post_claim_rejected by eauto. reflexivity.
  - intros a allocations K A R Ha HW Hp.
    erewrite post_claim_rejected by eauto. reflexivity.
  - intros a allocations expected K A R Ha HW G Hn T.
    erewrite post_claim_rejected by eauto. reflexivity.
Qed.

Lemma first_failing_check_decides_witness :
  fst (post_claim no_digits (Some registry_50) clock_0 request_wrong empty_db)
  = InvalidTokenKind.
Proof.
  apply (first_failing_check_decides no_digits (Some registry_50) clock_0
           request_wrong empty_db "DOGE"); reflexivity.
Defined.

(** A read of the registry finds a falsy value when the key is no own
    property, no name of [Object.prototype], and, if the prototype was
    replaced, not the name of a number of it that is neither zero nor
    NaN. *)
Lemma get_property_Missing (allocations : gmap string allocation) (key : string) :
  get_property allocations key = Missing
  <-> allocations !! key = None
      /\ (key ∉ Object_prototype)
      /\ forall prototype,
           allocations !! "__proto__" = Some prototype ->
           (key = "taral" -> Num.truthy (taral prototype) = false)
           /\ (key = "rvlng" -> Num.truthy (rvlng prototype) = false).
Proof.
  unfold get_property. destruct (allocations !! key) as [entry|].
  - split; [discriminate|]. intros [H _]. discriminate H.
  - destruct (allocations !! "__proto__") as [p|].
    + destruct (String.eqb_spec key "taral") as [->|Ht].
      * destruct (Num.truthy (taral p)) eqn:T; split; try discriminate; try (intros _; reflexivity).
        -- intros (_ & _ & H). destruct (H p eq_refl) as [H1 _].
           rewrite H1 in T by reflexivity. discriminate T.
        -- intros _. split; [reflexivity|]. split.
           ++ intros H. repeat (apply elem_of_cons in H as [H|H]; [discriminate H|]).
              inversion H.
           ++ intros p' [= <-]. split; [auto|discriminate].
      * destruct (String.eqb_spec key "rvlng") as [->|Hr].
        -- destruct (Num.truthy (rvlng p)) eqn:T; split; try discriminate; try (intros _; reflexivity).
           ++ intros (_ & _ & H). destruct (H p eq_refl) as [_ H1].
              rewrite H1 in T by reflexivity. discriminate T.
           ++ intros _. split; [reflexivity|]. split.
              ** intros H. repeat (apply elem_of_cons in H as [H|H]; [discriminate H|]).
                 inversion H.
              ** intros p' [= <-]. split; [discriminate|auto].
        -- case_bool_decide as Hp; split; try discriminate; try (intros _; reflexivity).
           ++ intros (_ & H & _). contradiction.
           ++ intros _. split; [reflexivity|]. split; [exact Hp|].
              intros p' _. split; intros; contradiction.
    + case_bool_decide as Hp; split; try discriminate; try (intros _; reflexivity).
      * intros (_ & H & _). contradiction.
      * intros _. split; [reflexivity|]. split; [exact Hp|]. intros p' H. discriminate H.
Qed.

(** X3. For a request whose strings are plain, the unknown-wallet
    rejection is given exactly when the first four checks pass, the wallet
    address is a string, the registry is loaded, and the read of the
    lower-case address from the registry finds a falsy value: the address is
    no key of the registry and no name that [Object.prototype] gives to every
    object, and, when a row of the file has replaced the prototype of the
    registry, it is not the name [taral] or [rvlng] of an amount of that row
    other than zero and NaN. *)
Theorem unknown_wallet_exactly_when Number_toString W e b store :
  plain_request b = true ->
  fst (post_claim Number_toString W e b store) = UnknownWallet
  <-> exists t a allocations,
        missing_fields b = false
        /\ Body.tokenType b = JStr t
        /\ Body.userAddress b = JStr a
        /\ toUpperCase t ∈ ["TARAL"; "RVLNG"]
        /\ Num.gt (parseFloat (Body.amount b)) Num.pzero = true
        /\ Num.gt (or_else (parseFloat (Body.conversionRate b)) one) Num.pzero = true
        /\ W = Some allocations
        /\ allocations !! toLowerCase a = None
        /\ (toLowerCase a ∉ Object_prototype)
        /\ forall prototype,
             allocations !! "__proto__" = Some prototype ->
             (toLowerCase a = "taral" -> Num.truthy (taral prototype) = false)
             /\ (toLowerCase a = "rvlng" -> Num.truthy (rvlng prototype) = false).
Proof.
  intros _. split.
  - intros Hu.
    destruct (post_claim_rejection Number_toString W e b store) as [V|V];
      rewrite Hu in V; [|discriminate V].
    unfold validate in V. destruct (missing_fields b) eqn:Hm; [discriminate|].
    destruct (Body.tokenType b) as [| | | |t] eqn:Ht; try discriminate.
    cbn [method_toUpperCase outcome_bind] in V.
    case_bool_decide as Hk; [|discriminate]. cbn [negb] in V.
    destruct (Num.isNaN (parseFloat (Body.amount b))
              || Num.le (parseFloat (Body.amount b)) Num.pzero) eqn:A; [discriminate|].
    destruct (Num.isNaN (or_else (parseFloat (Body.conversionRate b)) one)
              || Num.le (or_else (parseFloat (Body.conversionRate b)) one) Num.pzero)
      eqn:R; [discriminate|].
    destruct (Body.userAddress b) as [| | | |a] eqn:Ha; try discriminate.
    cbn [method_toLowerCase outcome_bind] in V.
    unfold getUserAllocation in V.
    cbn [method_toLowerCase method_toUpperCase outcome_bind] in V.
    rewrite toLowerCase_idempotent in V.
    destruct W as [allocations|]; [|discriminate].
    apply positive_iff in A, R.
    exists t, a, allocations.
    destruct (get_property allocations (toLowerCase a)) eqn:P.
    + exfalso. cbn [outcome_bind] in V.
      match type of V with
      | context [if ?c then _ else _] => destruct c; discriminate
      end.
    + exfalso. cbn [outcome_bind] in V.
      match type of V with
      | context [if ?c then _ else _] => destruct c; discriminate
      end.
    + apply get_property_Missing in P as (P1 & P2 & P3).
      repeat split; try assumption; apply (P3 _ H).
  - intros (t & a & allocations & Hm & Ht & Ha & Hk & A & R & -> & L & Hp & Hq).
    apply positive_iff in A, R.
    assert (P : get_property allocations (toLowerCase a) = Missing)
      by (apply get_property_Missing; auto).
    erewrite post_claim_rejected; [reflexivity|].
    unfold validate. rewrite Hm, Ht, Ha.
    cbn [method_toUpperCase method_toLowerCase outcome_bind].
    rewrite (bool_decide_eq_true_2 _ Hk). cbn [negb]. rewrite A, R.
    unfold getUserAllocation. cbn [method_toLowerCase outcome_bind].
    rewrite toLowerCase_idempotent, P. reflexivity.
Qed.

(** X4. The handler does not look at the case of the token kind or of the
    wallet address: a request gets the response, and leaves the store and
    the statements sent, of the request with the kind in upper case and the
    address in lower case. *)
Theorem letter_case_is_ignored Number_toString W e b store t a :
  Body.tokenType b = JStr t ->
  Body.userAddress b = JStr a ->
  post_claim Number_toString W e b store
  = post_claim Number_toString W e
      (with_address (JStr (toLowerCase a)) (with_kind (JStr (toUpperCase t)) b)) store.
Proof.
  intros Ht Ha.
  assert (V : validate W (with_address (JStr (toLowerCase a))
                            (with_kind (JStr (toUpperCase t)) b))
              = validate W b).
  { unfold validate, missing_fields, getUserAllocation.
    cbn [Body.tokenType Body.amount Body.transactionHash Body.userAddress
         Body.timestamp Body.conversionRate with_address with_kind].
    rewrite Ht, Ha. cbn [method_toUpperCase method_toLowerCase outcome_bind].
    unfold toUpperCase at 1, toLowerCase at 1. rewrite !to_boolean_map_string.
    rewrite !toUpperCase_idempotent, !toLowerCase_idempotent. reflexivity. }
  unfold post_claim, claim_try. rewrite V. reflexivity.
Qed.

Lemma letter_case_is_ignored_witness :
  post_claim no_digits (Some registry_50) clock_0 request_mixed_case empty_db
  = post_claim no_digits (Some registry_50) clock_0
      (with_address (JStr (toLowerCase "0xAbC"))
         (with_kind (JStr (toUpperCase "Taral")) request_mixed_case)) empty_db.
Proof.
  apply (letter_case_is_ignored no_digits (Some registry_50) clock_0
           request_mixed_case empty_db "Taral" "0xAbC"); reflexivity.
Defined.

(** X6. A token kind that is truthy but not a string, or, once the first
    four checks have passed, a wallet address that is not a string, makes
    the method call throw: the [catch] block rolls the transaction back and
    answers 500, the store is unchanged, and no statement has read or written
    a row. *)
Theorem non_string_is_internal_error Number_toString W e b store :
  missing_fields b = false ->
  (forall t, Body.tokenType b <> JStr t)
  \/ ((exists t, Body.tokenType b = JStr t /\ toUpperCase t ∈ ["TARAL"; "RVLNG"])
      /\ Num.gt (parseFloat (Body.amount b)) Num.pzero = true
      /\ Num.gt (or_else (parseFloat (Body.conversionRate b)) one) Num.pzero = true
      /\ forall a, Body.userAddress b <> JStr a) ->
  exists message,
    post_claim Number_toString W e b store
    = (InternalError message,
       {| committed := store; transaction := None; sent := [BEGIN; ROLLBACK] |}).
Proof.
  intros Hm [Ht|((t & Ht & Hk) & A & R & Ha)].
  - exists "TypeError: toUpperCase is not a function".
    apply post_claim_thrown. unfold validate. rewrite Hm.
    destruct (Body.tokenType b) as [| | | |t]; try reflexivity.
    exfalso. exact (Ht t eq_refl).
  - exists "TypeError: toLowerCase is not a function".
    apply post_claim_thrown. apply positive_iff in A, R.
    unfold validate. rewrite Hm, Ht.
    cbn [method_toUpperCase outcome_bind].
    rewrite (bool_decide_eq_true_2 _ Hk). cbn [negb]. rewrite A, R.
    destruct (Body.userAddress b) as [| | | |a]; try reflexivity.
    exfalso. exact (Ha a eq_refl).
Qed.

Lemma non_string_is_internal_error_witness :
  exists message,
    post_claim no_digits (Some registry_50) clock_0 request_number_kind empty_db
    = (InternalError message,
       {| committed := empty_db; transaction := None; sent := [BEGIN; ROLLBACK] |}).
Proof.
  apply (non_string_is_internal_error no_digits (Some registry_50) clock_0
           request_number_kind empty_db).
  - reflexivity.
  - left. intros t. discriminate.
Defined.

(** ** [GET /wallet/claims/:address], in its two versions *)


Lemma add_pzero_parse (x : num) : Num.add Num.pzero x = parseFloat (JNum x).
Proof. destruct x as [[]|[]| |[] m e]; reflexivity. Qed.














(** ** The allocation report after a claim *)

Lemma report_claimed W param store data :
  get_allocations W param store = Allocations data ->
  Report.claimed (Report.taral data) = claimed_sum "TARAL" (toLowerCase param) store
  /\ Report.claimed (Report.rvlng data) = claimed_sum "RVLNG" (toLowerCase param) store.
Proof.
  unfold get_allocations. destruct W as [allocations|]; [|discriminate].
  destruct (get_property allocations (toLowerCase param)); try discriminate.
  all: intros [= <-]; cbn [Report.taral Report.rvlng Report.claimed entry_of];
    rewrite add_claimed_taral, add_claimed_rvlng; cbn [taral rvlng];
    rewrite !claimed_of_kind; split; reflexivity.
Qed.

(** X17. After a claim that succeeded, the allocation report of the
    wallet, asked for under the address as the request spelled it, exists
    and shows for the token kind of the claim exactly the amount claimed,
    and for the other kind what the wallet had claimed before. *)
Theorem report_after_claim Number_toString W e b store data t a :
  fst (post_claim Number_toString W e b store) = Success data ->
  Body.tokenType b = JStr t ->
  Body.userAddress b = JStr a ->
  exists report,
    get_allocations W a (committed (snd (post_claim Number_toString W e b store)))
    = Allocations report
    /\ Report.claimed (if String.eqb (toUpperCase t) "TARAL"
                       then Report.taral report else Report.rvlng report)
       = parseFloat (Body.amount b)
    /\ Report.claimed (if String.eqb (toUpperCase t) "TARAL"
                       then Report.rvlng report else Report.taral report)
       = claimed_sum (if String.eqb (toUpperCase t) "TARAL" then "RVLNG" else "TARAL")
           (toLowerCase a) store.
Proof.
  intros Hs Ht Ha.
  apply post_claim_Success_fresh in Hs as (v & V & _ & F2 & -> & _).
  apply validate_accepts in V
    as (t' & a' & expected & _ & Ht' & Ha' & Hk & A & _ & G & Hn & _ & ->).
  rewrite Ht in Ht'. rewrite Ha in Ha'. injection Ht' as <-. injection Ha' as <-.
  cbn [claimUserAddress kind] in F2.
  set (v := {| kind := toUpperCase t |}) in *.
  assert (Hr : exists report,
            get_allocations W a (store_after Number_toString e v store)
            = Allocations report).
  { unfold getUserAllocation in G. cbn [method_toLowerCase outcome_bind] in G.
    rewrite toLowerCase_idempotent in G.
    destruct W as [allocations|]; [|discriminate G].
    unfold get_allocations.
    destruct (get_property allocations (toLowerCase a)); eauto.
    injection G as <-. contradiction. }
  destruct Hr as (report & Hr). exists report. split; [exact Hr|].
  apply report_claimed in Hr as [R1 R2].
  assert (Z : forall k, claimed_sum k (toLowerCase a)
                          (store_after Number_toString e v store)
                        = if decide (toUpperCase t = k)
                          then Num.add (claimed_sum k (toLowerCase a) store)
                                 (parseFloat (Body.amount b))
                          else claimed_sum k (toLowerCase a) store).
  { intros k.
    rewrite (claimed_sum_snoc k (toLowerCase a) store
               (store_after Number_toString e v store)
               (inserted Number_toString e v store) eq_refl).
    cbn [inserted Claims.user_address Claims.token_type Claims.amount v
         claimUserAddress kind claimAmount].
    rewrite (parseFloat_positive _ A).
    destruct (decide (toUpperCase t = k)) as [E|E].
    - rewrite decide_True by auto. reflexivity.
    - rewrite decide_False by tauto. reflexivity. }
  assert (F : claimed_sum (toUpperCase t) (toLowerCase a) store = Num.pzero).
  { unfold claimed_sum. rewrite F2. reflexivity. }
  rewrite (Z "TARAL") in R1. rewrite (Z "RVLNG") in R2.
  apply elem_of_cons in Hk as [Hk|Hk];
    [|apply list_elem_of_singleton in Hk]; rewrite Hk in *; cbn [String.eqb Ascii.eqb Bool.eqb].
  - rewrite decide_True in R1 by reflexivity.
    rewrite decide_False in R2 by discriminate.
    rewrite F, add_pzero_parse, (parseFloat_positive _ A) in R1. auto.
  - rewrite decide_False in R1 by discriminate.
    rewrite decide_True in R2 by reflexivity.
    rewrite F, add_pzero_parse, (parseFloat_positive _ A) in R2. auto.
Qed.

Lemma report_after_claim_witness :
  exists report,
    get_allocations (Some registry_50) "0xAbC"
      (committed (snd (post_claim no_digits (Some registry_50) clock_0
                         request_mixed_case empty_db)))
    = Allocations report
    /\ Report.claimed (if String.eqb (toUpperCase "Taral") "TARAL"
                       then Report.taral report else Report.rvlng report)
       = parseFloat (Body.amount request_mixed_case)
    /\ Report.claimed (if String.eqb (toUpperCase "Taral") "TARAL"
                       then Report.rvlng report else Report.taral report)
       = claimed_sum (if String.eqb (toUpperCase "Taral") "TARAL"
                      then "RVLNG" else "TARAL")
           (toLowerCase "0xAbC") empty_db.
Proof.
  eapply (report_after_claim no_digits (Some registry_50) clock_0 request_mixed_case
            empty_db _ "Taral" "0xAbC"); [vm_compute|..]; reflexivity.
Defined.

(** ** Counting accounts and claims *)





(** ** The totals of the success response *)




(** ** The three characterisations on the scenario *)

Lemma accepted_exactly_when_witness :
  exists data,
    fst (post_claim no_digits (Some registry_50) clock_0 request_50 empty_db)
    = Success data.
Proof.
  apply (accepted_exactly_when no_digits (Some registry_50) clock_0 request_50 empty_db);
    [reflexivity|].
  exists "TARAL", "0xABC", (Amount (Num.of_Z 50)).
  repeat split; try reflexivity.
  - left.
  - discriminate.
  - apply not_elem_of_nil.
  - apply not_elem_of_nil.
Defined.

Lemma unknown_wallet_exactly_when_witness :
  fst (post_claim no_digits (Some registry_prototype) clock_0
         (with_address (JStr "RVLNG") request_50) empty_db)
  = UnknownWallet.
Proof.
  apply (unknown_wallet_exactly_when no_digits (Some registry_prototype) clock_0
           (with_address (JStr "RVLNG") request_50) empty_db); [reflexivity|].
  exists "TARAL", "RVLNG", registry_prototype.
  repeat split; try reflexivity.
  - left.
  - vm_compute. intros H. repeat (apply elem_of_cons in H as [H|H]; [discriminate H|]).
    inversion H.
  - discriminate.
  - intros _. vm_compute in H. injection H as <-. reflexivity.
Defined.

Lemma load_fails_only_on_unreadable_or_unaddressed_witness :
  loadWalletAllocations (Some file_broken) = None.
Proof.
  apply (load_fails_only_on_unreadable_or_unaddressed (Some file_broken)).
  right.
  exists file_broken,
    {| wallet_address := JUndefined; taral_amount := JStr "1"; rvlng_amount := JStr "1" |}.
  split; [reflexivity|]. split; [right; left|]. intros a. discriminate.
Defined.
